(** * Railway monitoring: signaling sessions, camera registry and CCTV gateway

    A shallow embedding of the stateful cores of the repository:
    - [StreamToken]: cctv-gateway/src/auth/stream.token.js together with the
      two callers of [validateStreamToken] (POST /validate-token in
      cctv-gateway/src/server.js and [verifyClient] in
      cctv-gateway/src/webrtc/webrtc.session.js);
    - [Rtsp]: the RTSP stream manager of the gateway
      (cctv-gateway/src/streams/rtsp.manager.js);
    - [Sessions]: the session store of the signaling hub ("Session State
      Management"), with the [start-monitoring] handler modelled from the
      specification;
    - [Registry]: the camera registry of the control backend
      (src/cctv/camera.registry.js);
    - [ControlApi]: token issue and access control (src/cctv/camera.access.js)
      and the CCTV routes of the control backend ("CCTV API Routes").

    JavaScript module-level [Map]s become explicit stores threaded through
    the functions; [Date.now()] / [new Date()] become an explicit [now]
    argument in milliseconds. *)

From stdpp Require Import gmap strings list fin_maps.
From Stdlib Require Import ZArith Lia.

Local Open Scope string_scope.
Local Open Scope Z_scope.

(* ===================================================================== *)
(** * Part I: the embedding                                               *)
(* ===================================================================== *)

(** A JavaScript [Date]: a time value in milliseconds, or Invalid Date
    (time value NaN). *)
Inductive Date : Type :=
| ValidDate (ms : Z)
| InvalidDate.

(** [d.getTime()]: [None] stands for NaN. *)
Definition getTime (d : Date) : option Z :=
  match d with
  | ValidDate ms => Some ms
  | InvalidDate => None
  end.

(** [a < b] on numbers where [None] is NaN: any comparison with NaN is false. *)
Definition js_lt (a b : option Z) : bool :=
  match a, b with
  | Some x, Some y => x <? y
  | _, _ => false
  end.

(** JavaScript truthiness of a string: only the empty string is falsy. *)
Definition truthy (s : string) : bool :=
  match s with
  | EmptyString => false
  | _ => true
  end.

Module StreamToken.

(** The [expiresAt] claim of a decoded token: falsy (absent, empty, 0), or
    the [Date] that [new Date(decoded.expiresAt)] builds from it. *)
Inductive ExpiresAtClaim : Type :=
| ExpFalsy
| ExpDate (d : Date).

(** The decoded payload, as far as [validateStreamToken] reads it.  An absent
    [cameraId] is the empty string; absent [permissions] is [None]. *)
Record Payload : Type := mkPayload {
  cameraId : string;
  expiresAt : ExpiresAtClaim;
  permissions : option (list string)
}.

(** Outcome of [jwt.verify(token, JWT_SECRET)]: the decoded payload, or a
    thrown error, identified by its [error.name]. *)
Inductive JwtResult : Type :=
| Decoded (p : Payload)
| Throws (name : string).

(** The object returned by [validateStreamToken]; absent fields are [None]. *)
Record Validation : Type := mkValidation {
  valid : bool;
  error : option string;
  v_cameraId : option string;
  v_expiresAt : option Date;
  v_permissions : option (list string)
}.

Definition invalid (msg : string) : Validation :=
  mkValidation false (Some msg) None None None.

(** [usedTokens]: token string |-> [expiresAt.getTime()]. *)
Abbreviation UsedTokens := (gmap string (option Z)).

(** The [catch] block of [validateStreamToken]. *)
Definition catch_error (name : string) : Validation :=
  if String.eqb name "JsonWebTokenError" then invalid "Invalid token signature"
  else if String.eqb name "TokenExpiredError" then invalid "Token expired"
  else invalid "Token validation failed".

Section Gateway.

(** [jwt.verify] of the jsonwebtoken package with the gateway's secret: an
    external library, taken as a parameter.  It reads the clock itself (for
    the standard [exp] claim), hence the time argument. *)
Variable jwt_verify : string -> Z -> JwtResult.

Definition validateStreamToken (token : string) (now : Z)
    (usedTokens : UsedTokens) : Validation * UsedTokens :=
  if negb (truthy token) then (invalid "Token required", usedTokens)
  else match usedTokens !! token with
  | Some _ => (invalid "Token already used", usedTokens)
  | None =>
    match jwt_verify token now with
    | Throws name => (catch_error name, usedTokens)
    | Decoded decoded =>
      if negb (truthy (cameraId decoded))
      then (invalid "Token missing cameraId", usedTokens)
      else match expiresAt decoded with
      | ExpFalsy => (invalid "Token missing expiresAt", usedTokens)
      | ExpDate expiresAt =>
        if js_lt (getTime expiresAt) (Some now)
        then (mkValidation false (Some "Token expired")
                (Some (cameraId decoded)) (Some expiresAt) None, usedTokens)
        else
          let usedTokens' := <[token := getTime expiresAt]> usedTokens in
          let permissions :=
            match permissions decoded with
            | Some ps => ps
            | None => ["VIEW"]
            end in
          match expiresAt with
          | InvalidDate =>
            (* expiresAt.toISOString() in the log call throws RangeError *)
            (catch_error "RangeError", usedTokens')
          | ValidDate _ =>
            (mkValidation true None (Some (cameraId decoded))
               (Some expiresAt) (Some permissions), usedTokens')
          end
      end
    end
  end.

(** [hasPermission(validationResult, permission)]. *)
Definition hasPermission (v : Validation) (permission : string) : bool :=
  if negb (valid v) then false
  else match v_permissions v with
       | Some ps => bool_decide (permission ∈ ps)
       | None => false
       end.

(** The body of the [setInterval] sweep: every entry whose stored expiry is
    [< now] is deleted. *)
Definition sweep (now : Z) (usedTokens : UsedTokens) : UsedTokens :=
  filter (λ kv, js_lt kv.2 (Some now) = false) usedTokens.

(** The JSON body of a /validate-token response. *)
Record TokenResponse : Type := mkTokenResponse {
  http_status : Z;
  r_valid : bool;
  r_cameraId : option string;
  r_expiresAt : option Date;
  r_error : option string
}.

(** [app.post('/validate-token', ...)]; [None] is a body without [token]. *)
Definition postValidateToken (token : option string) (now : Z)
    (usedTokens : UsedTokens) : TokenResponse * UsedTokens :=
  match token with
  | None => (mkTokenResponse 400 false None None (Some "Token required"), usedTokens)
  | Some t =>
    if negb (truthy t)
    then (mkTokenResponse 400 false None None (Some "Token required"), usedTokens)
    else
      let '(validation, usedTokens') := validateStreamToken t now usedTokens in
      (mkTokenResponse 200 (valid validation) (v_cameraId validation)
         (v_expiresAt validation) (error validation), usedTokens')
  end.

(** What [verifyClient] passes to its callback. *)
Inductive Handshake : Type :=
| Accept (v : Validation)
| Reject (code : Z) (reason : string).

(** [verifyClient] of the /webrtc WebSocket server; [None] is a URL without a
    [token] query parameter. *)
Definition verifyClient (token : option string) (now : Z)
    (usedTokens : UsedTokens) : Handshake * UsedTokens :=
  match token with
  | None => (Reject 401 "Token required", usedTokens)
  | Some t =>
    if negb (truthy t) then (Reject 401 "Token required", usedTokens)
    else
      let '(validation, usedTokens') := validateStreamToken t now usedTokens in
      if negb (valid validation)
      then (Reject 401 (match error validation with
                        | Some e => if truthy e then e else "Invalid token"
                        | None => "Invalid token"
                        end), usedTokens')
      else if negb (hasPermission validation "VIEW")
      then (Reject 403 "No VIEW permission", usedTokens')
      else (Accept validation, usedTokens')
  end.

(** Things that happen to the replay set during the life of the gateway
    process: a validation (from either caller) and a tick of the sweep. *)
Inductive Event : Type :=
| EvValidate (token : string) (now : Z)
| EvSweep (now : Z).

Definition ev_time (ev : Event) : Z :=
  match ev with
  | EvValidate _ t => t
  | EvSweep t => t
  end.

Definition step (usedTokens : UsedTokens) (ev : Event) : UsedTokens :=
  match ev with
  | EvValidate token now => (validateStreamToken token now usedTokens).2
  | EvSweep now => sweep now usedTokens
  end.

Definition run (usedTokens : UsedTokens) (evs : list Event) : UsedTokens :=
  fold_left step evs usedTokens.

(** Requests served by the gateway that reach [validateStreamToken]. *)
Inductive Request : Type :=
| PostValidateToken (token : option string) (now : Z)
| WebrtcHandshake (token : option string) (now : Z).

Definition serve (usedTokens : UsedTokens) (rq : Request) : UsedTokens :=
  match rq with
  | PostValidateToken token now => (postValidateToken token now usedTokens).2
  | WebrtcHandshake token now => (verifyClient token now usedTokens).2
  end.

(** What the gateway process does to the replay set over time: it serves a
    request, or the [setInterval] sweep of the token module ticks. *)
Inductive Activity : Type :=
| Serve (rq : Request)
| SweepTick (now : Z).

Definition act (usedTokens : UsedTokens) (a : Activity) : UsedTokens :=
  match a with
  | Serve rq => serve usedTokens rq
  | SweepTick now => sweep now usedTokens
  end.

Definition serve_all (usedTokens : UsedTokens) (acts : list Activity) : UsedTokens :=
  fold_left act acts usedTokens.

End Gateway.

(** What an activity of the gateway amounts to on the replay set: one call
    of [validateStreamToken] (a request without a token presents the empty
    string) or one sweep. *)
Definition as_event (a : Activity) : Event :=
  match a with
  | Serve (PostValidateToken token now) => EvValidate (default "" token) now
  | Serve (WebrtcHandshake token now) => EvValidate (default "" token) now
  | SweepTick now => EvSweep now
  end.

(** The clock never runs backwards along a trace that starts at time [t]. *)
Fixpoint clock_from (t : Z) (evs : list Event) : bool :=
  match evs with
  | [] => true
  | ev :: evs' => (t <=? ev_time ev) && clock_from (ev_time ev) evs'
  end.

(** Some sweep of the trace ran strictly after time [e]. *)
Definition swept_after (e : Z) (evs : list Event) : bool :=
  existsb (λ ev, match ev with
                 | EvSweep t => e <? t
                 | EvValidate _ _ => false
                 end) evs.

(** The payload that a verifier decodes from a token does not depend on when
    the token is verified. *)
Definition payload_stable (jwt_verify : string -> Z -> JwtResult) : Prop :=
  ∀ token t1 t2 p1 p2,
    jwt_verify token t1 = Decoded p1 →
    jwt_verify token t2 = Decoded p2 → p1 = p2.

(** A concrete verifier in the manner of jsonwebtoken: [issued] lists the
    token strings that carry a good signature under the shared secret, each
    with its payload and its optional standard [exp] claim (in seconds).  A
    string outside [issued] fails with JsonWebTokenError; a token whose [exp]
    is at or before the clock (in whole seconds) fails with
    TokenExpiredError. *)
Definition table_verify (issued : list (string * (Payload * option Z)))
    (token : string) (now : Z) : JwtResult :=
  match list_to_map (M := gmap string (Payload * option Z)) issued !! token with
  | None => Throws "JsonWebTokenError"
  | Some (p, None) => Decoded p
  | Some (p, Some exp) =>
    if exp <=? now / 1000 then Throws "TokenExpiredError" else Decoded p
  end.

(** Sample tokens.  [T1] is what [generateStreamToken] mints at time 40000
    with the default TTL of 60 s: expiresAt = 100000 ms, iat = 40, exp = 100.
    [T2] is signed with the same secret but without an [exp] claim. *)
Definition sample_issued : list (string * (Payload * option Z)) :=
  [ ("T1", (mkPayload "CCTV_01" (ExpDate (ValidDate 100000)) (Some ["VIEW"]), Some 100));
    ("T2", (mkPayload "CCTV_01" (ExpDate (ValidDate 100000)) (Some ["VIEW"]), None)) ].

Definition sample_verify : string -> Z -> JwtResult := table_verify sample_issued.

End StreamToken.

Module Rtsp.

Inductive Status : Type := STARTING | RUNNING | STOPPING | STOPPED | ERROR.

(** An entry of [cameraRegistry], with [enabled] already normalised by
    [config.enabled !== false]. *)
Record CameraConfig : Type := mkCameraConfig {
  c_cameraId : string;
  rtspUrl : string;
  location : option string;
  enabled : bool
}.

(** The [config] argument of [registerCamera]: absent fields are the empty
    string or [None]. *)
Record CameraInput : Type := mkCameraInput {
  i_cameraId : string;
  i_rtspUrl : string;
  i_location : option string;
  i_enabled : option bool
}.

(** A [streamInfo] object.  [ffmpegProcess] names the spawned child; the
    handlers of that child close over the object that holds it. *)
Record StreamInfo : Type := mkStreamInfo {
  cameraId : string;
  ffmpegProcess : option nat;
  startedAt : Z;
  viewerCount : Z;
  lastViewerActivity : Z;
  status : Status;
  streamType : string;
  restartCount : Z;
  lastRestart : option Z
}.

Record Health : Type := mkHealth {
  h_cameraId : string;
  h_status : string;
  h_message : string;
  h_lastSeen : Z
}.

(** The module state of rtsp.manager.js.  [streamInfo] objects are mutated
    through references held by the [activeStreams] map and by the closures of
    child-process handlers and timers, so they live in a [heap] and are
    addressed by index; objects are appended and never removed.
    [restartTimers] are the pending [setTimeout] restart callbacks, each with
    the [cameraId] and [streamInfo] it captured, oldest first; [spawned]
    counts the calls of [spawn]. *)
Record Supervisor : Type := mkSupervisor {
  cameraRegistry : gmap string CameraConfig;
  heap : list StreamInfo;
  activeStreams : gmap string nat;
  streamHealth : gmap string Health;
  restartTimers : list (string * nat);
  spawned : nat
}.

Definition initial : Supervisor := mkSupervisor ∅ [] ∅ ∅ [] 0.

Definition set_status (s : Status) (si : StreamInfo) : StreamInfo :=
  mkStreamInfo (cameraId si) (ffmpegProcess si) (startedAt si) (viewerCount si)
    (lastViewerActivity si) s (streamType si) (restartCount si) (lastRestart si).

Definition set_viewerCount (n : Z) (si : StreamInfo) : StreamInfo :=
  mkStreamInfo (cameraId si) (ffmpegProcess si) (startedAt si) n
    (lastViewerActivity si) (status si) (streamType si) (restartCount si) (lastRestart si).

Definition set_lastViewerActivity (t : Z) (si : StreamInfo) : StreamInfo :=
  mkStreamInfo (cameraId si) (ffmpegProcess si) (startedAt si) (viewerCount si)
    t (status si) (streamType si) (restartCount si) (lastRestart si).

Definition set_restart (n : Z) (t : option Z) (si : StreamInfo) : StreamInfo :=
  mkStreamInfo (cameraId si) (ffmpegProcess si) (startedAt si) (viewerCount si)
    (lastViewerActivity si) (status si) (streamType si) n t.

Definition with_registry (m : gmap string CameraConfig) (st : Supervisor) : Supervisor :=
  mkSupervisor m (heap st) (activeStreams st) (streamHealth st) (restartTimers st) (spawned st).

Definition with_heap (h : list StreamInfo) (st : Supervisor) : Supervisor :=
  mkSupervisor (cameraRegistry st) h (activeStreams st) (streamHealth st) (restartTimers st) (spawned st).

Definition with_active (m : gmap string nat) (st : Supervisor) : Supervisor :=
  mkSupervisor (cameraRegistry st) (heap st) m (streamHealth st) (restartTimers st) (spawned st).

Definition with_timers (ts : list (string * nat)) (st : Supervisor) : Supervisor :=
  mkSupervisor (cameraRegistry st) (heap st) (activeStreams st) (streamHealth st) ts (spawned st).

Definition with_spawned (n : nat) (st : Supervisor) : Supervisor :=
  mkSupervisor (cameraRegistry st) (heap st) (activeStreams st) (streamHealth st) (restartTimers st) n.

Definition updateStreamHealth (cameraId status message : string) (now : Z)
    (st : Supervisor) : Supervisor :=
  mkSupervisor (cameraRegistry st) (heap st) (activeStreams st)
    (<[cameraId := mkHealth cameraId status message now]> (streamHealth st))
    (restartTimers st) (spawned st).

(** [registerCamera(config)] of the gateway; [Some msg] is a thrown error. *)
Definition registerCamera (config : CameraInput) (st : Supervisor)
    : option string * Supervisor :=
  if negb (truthy (i_cameraId config)) || negb (truthy (i_rtspUrl config))
  then (Some "cameraId and rtspUrl are required", st)
  else if negb (String.prefix "rtsp://" (i_rtspUrl config))
  then (Some "rtspUrl must start with rtsp://", st)
  else (None,
        with_registry
          (<[i_cameraId config :=
               mkCameraConfig (i_cameraId config) (i_rtspUrl config) (i_location config)
                 (match i_enabled config with Some false => false | _ => true end)]>
             (cameraRegistry st)) st).

(** [stopStream(cameraId)].  The signals sent to the child do not touch this
    store; the exit of the child arrives later as an event. *)
Definition stopStream (cameraId : string) (now : Z) (st : Supervisor) : Supervisor :=
  match activeStreams st !! cameraId with
  | None => st
  | Some r =>
    match heap st !! r with
    | None => st
    | Some streamInfo =>
      match status streamInfo with
      | STOPPING | STOPPED => st
      | _ =>
        updateStreamHealth cameraId "OFFLINE" "Stream stopped" now
          (with_heap (<[r := set_status STOPPING streamInfo]> (heap st)) st)
      end
    end
  end.

(** The errors that the manager throws:
    [Camera ${cameraId} not found in registry], [Camera ${cameraId} is disabled],
    [Stream not found for camera ${cameraId}] and
    [Max viewers (${MAX_VIEWERS_PER_CAMERA}) reached for camera ${cameraId}]. *)
Inductive ManagerError : Type :=
| CameraNotFound (cameraId : string)
| CameraDisabled (cameraId : string)
| StreamNotFound (cameraId : string)
| MaxViewersReached (max : Z) (cameraId : string).

(** How [startStream] settles: with the new object, with the object that is
    already active, or rejected. *)
Inductive StartResult : Type :=
| Started (r : nat)
| AlreadyActive (r : nat)
| StartRejected (e : ManagerError).

(** [startStream(cameraId)].  [spawn] hands back a child at once (a failing
    child reports through its 'error' and 'exit' events), so the object is
    RUNNING when the call returns. *)
Definition startStream (cameraId : string) (now : Z) (st : Supervisor)
    : StartResult * Supervisor :=
  match cameraRegistry st !! cameraId with
  | None => (StartRejected (CameraNotFound cameraId), st)
  | Some camera =>
    if negb (enabled camera) then (StartRejected (CameraDisabled cameraId), st)
    else
      let existing :=
        match activeStreams st !! cameraId with
        | Some r => match heap st !! r with
                    | Some streamInfo => Some (r, status streamInfo)
                    | None => None
                    end
        | None => None
        end in
      match existing with
      | Some (r, RUNNING) | Some (r, STARTING) => (AlreadyActive r, st)
      | _ =>
        let st1 :=
          match existing with
          | Some (_, ERROR) => stopStream cameraId now st
          | _ => st
          end in
        let r := length (heap st1) in
        let streamInfo :=
          mkStreamInfo cameraId (Some r) now 0 now RUNNING "webrtc" 0 None in
        (Started r,
         updateStreamHealth cameraId "ONLINE" "Stream started successfully" now
           (mkSupervisor (cameraRegistry st1) (heap st1 ++ [streamInfo])
              (<[cameraId := r]> (activeStreams st1)) (streamHealth st1)
              (restartTimers st1) (S (spawned st1))))
      end
  end.

Section Manager.

(** Configuration read from the environment when the module is loaded. *)
Variables (MAX_VIEWERS_PER_CAMERA STREAM_TIMEOUT_NO_VIEWERS : Z).

(** [addViewer(cameraId)]; [Some e] is a thrown error. *)
Definition addViewer (cameraId : string) (now : Z) (st : Supervisor)
    : option ManagerError * Supervisor :=
  match activeStreams st !! cameraId with
  | None => (Some (StreamNotFound cameraId), st)
  | Some r =>
    match heap st !! r with
    | None => (Some (StreamNotFound cameraId), st)
    | Some streamInfo =>
      if MAX_VIEWERS_PER_CAMERA <=? viewerCount streamInfo
      then (Some (MaxViewersReached MAX_VIEWERS_PER_CAMERA cameraId), st)
      else (None,
            with_heap
              (<[r := set_lastViewerActivity now
                        (set_viewerCount (viewerCount streamInfo + 1) streamInfo)]>
                 (heap st)) st)
    end
  end.

(** [removeViewer(cameraId)]. *)
Definition removeViewer (cameraId : string) (now : Z) (st : Supervisor) : Supervisor :=
  match activeStreams st !! cameraId with
  | None => st
  | Some r =>
    match heap st !! r with
    | None => st
    | Some streamInfo =>
      let count := Z.max 0 (viewerCount streamInfo - 1) in
      let st1 := with_heap (<[r := set_viewerCount count streamInfo]> (heap st)) st in
      if (count =? 0) && (STREAM_TIMEOUT_NO_VIEWERS <? now - lastViewerActivity streamInfo)
      then stopStream cameraId now st1
      else st1
    end
  end.

(** [ffmpegProcess.stdout.on('data', ...)] of the child held by object [r]. *)
Definition onStdoutData (r : nat) (now : Z) (st : Supervisor) : Supervisor :=
  match heap st !! r with
  | None => st
  | Some streamInfo =>
    with_heap (<[r := set_lastViewerActivity now streamInfo]> (heap st)) st
  end.

(** [ffmpegProcess.on('exit', ...)] of the child held by object [r]. *)
Definition onExit (r : nat) (code signal : string) (now : Z) (st : Supervisor)
    : Supervisor :=
  match heap st !! r with
  | None => st
  | Some streamInfo =>
    let cameraId := cameraId streamInfo in
    match status streamInfo with
    | STOPPING =>
      with_active (delete cameraId (activeStreams st))
        (with_heap (<[r := set_status STOPPED streamInfo]> (heap st)) st)
    | _ =>
      let st1 :=
        updateStreamHealth cameraId "ERROR"
          ("FFmpeg process exited: code " +:+ code +:+ ", signal " +:+ signal) now
          (with_heap (<[r := set_status ERROR streamInfo]> (heap st)) st) in
      if restartCount streamInfo <? 5
      then
        with_timers (restartTimers st1 ++ [(cameraId, r)])
          (with_heap
             (<[r := set_restart (restartCount streamInfo + 1) (Some now)
                       (set_status ERROR streamInfo)]> (heap st1)) st1)
      else updateStreamHealth cameraId "ERROR" "Max restart attempts reached" now st1
    end
  end.

(** [ffmpegProcess.on('error', ...)] of the child held by object [r]. *)
Definition onError (r : nat) (message : string) (now : Z) (st : Supervisor)
    : Supervisor :=
  match heap st !! r with
  | None => st
  | Some streamInfo =>
    updateStreamHealth (cameraId streamInfo) "ERROR" message now
      (with_heap (<[r := set_status ERROR streamInfo]> (heap st)) st)
  end.

(** The oldest pending restart callback fires: it looks at the object it
    captured, not at the one the map holds now. *)
Definition onRestartTimer (now : Z) (st : Supervisor) : Supervisor :=
  match restartTimers st with
  | [] => st
  | (cameraId, r) :: rest =>
    let st1 := with_timers rest st in
    match activeStreams st1 !! cameraId, heap st1 !! r with
    | Some _, Some streamInfo =>
      match status streamInfo with
      | ERROR => (startStream cameraId now st1).2
      | _ => st1
      end
    | _, _ => st1
    end
  end.

(** One entry of the periodic cleanup loop of [initializeRTSP]. *)
Definition reap_one (now : Z) (st : Supervisor) (entry : string * nat) : Supervisor :=
  match heap st !! entry.2 with
  | None => st
  | Some streamInfo =>
    if (viewerCount streamInfo =? 0)
       && (STREAM_TIMEOUT_NO_VIEWERS <? now - lastViewerActivity streamInfo)
    then stopStream entry.1 now st
    else st
  end.

(** The periodic cleanup (every 30 s).  The loop body changes neither the map
    it iterates nor any object of another entry, so the order of the entries
    does not matter. *)
Definition reaper (now : Z) (st : Supervisor) : Supervisor :=
  fold_left (reap_one now) (map_to_list (activeStreams st)) st.

(** The callbacks that Node runs on the supervisor, one at a time. *)
Inductive Event : Type :=
| EvRegisterCamera (config : CameraInput)
| EvStartStream (cameraId : string) (now : Z)
| EvStopStream (cameraId : string) (now : Z)
| EvAddViewer (cameraId : string) (now : Z)
| EvRemoveViewer (cameraId : string) (now : Z)
| EvStdoutData (r : nat) (now : Z)
| EvExit (r : nat) (code signal : string) (now : Z)
| EvError (r : nat) (message : string) (now : Z)
| EvRestartTimer (now : Z)
| EvReaper (now : Z).

Definition step (st : Supervisor) (ev : Event) : Supervisor :=
  match ev with
  | EvRegisterCamera config => (registerCamera config st).2
  | EvStartStream cameraId now => (startStream cameraId now st).2
  | EvStopStream cameraId now => stopStream cameraId now st
  | EvAddViewer cameraId now => (addViewer cameraId now st).2
  | EvRemoveViewer cameraId now => removeViewer cameraId now st
  | EvStdoutData r now => onStdoutData r now st
  | EvExit r code signal now => onExit r code signal now st
  | EvError r message now => onError r message now st
  | EvRestartTimer now => onRestartTimer now st
  | EvReaper now => reaper now st
  end.

Definition run (st : Supervisor) (evs : list Event) : Supervisor :=
  fold_left step evs st.

(** The [streamInfo] that [getStream(cameraId)] returns. *)
Definition getStream (cameraId : string) (st : Supervisor) : option StreamInfo :=
  match activeStreams st !! cameraId with
  | Some r => heap st !! r
  | None => None
  end.

End Manager.

(** The viewer count of a [streamInfo] lies within its bounds. *)
Definition bounded (MAX_VIEWERS_PER_CAMERA : Z) (si : StreamInfo) : Prop :=
  0 ≤ viewerCount si ≤ MAX_VIEWERS_PER_CAMERA.

(** A camera whose child dies every time: the child of object [k] exits with
    code 1 and, AUTO_RESTART_DELAY (5 s) later, the restart callback fires. *)
Definition crash_round (k : nat) : list Event :=
  [ EvExit k "1" "null" (10000 * Z.of_nat k + 1000);
    EvRestartTimer (10000 * Z.of_nat k + 6000) ].

Definition crash_loop (n : nat) : list Event :=
  flat_map crash_round (seq 0 n).

(** A camera that keeps delivering frames and has no viewer: in every 30 s
    period its child writes to stdout one second before the cleanup runs. *)
Definition idle_round (r : nat) (k : nat) : list Event :=
  [ EvStdoutData r (30000 * Z.of_nat k + 29000);
    EvReaper (30000 * Z.of_nat k + 30000) ].

Definition idle_rounds (r : nat) (n : nat) : list Event :=
  flat_map (idle_round r) (seq 0 n).

(** The supervisor right after camera [cameraId] was registered and its
    stream started at time 0. *)
Definition one_camera (cameraId : string) : Supervisor :=
  (startStream cameraId 0
     (registerCamera (mkCameraInput cameraId "rtsp://10.0.0.1/stream" None None)
        initial).2).2.

(** The shape of the supervisor while camera [cam] is served by its [k]-th
    replacement object: that object is RUNNING with a restart count of 0, no
    restart is pending, and [k + 1] children have been spawned. *)
Definition serving (cam : string) (k : nat) (st : Supervisor) : Prop :=
  (∃ camera, cameraRegistry st !! cam = Some camera ∧ enabled camera = true) ∧
  length (heap st) = S k ∧
  activeStreams st !! cam = Some k ∧
  (∃ t, heap st !! k = Some (mkStreamInfo cam (Some k) t 0 t RUNNING "webrtc" 0 None)) ∧
  restartTimers st = [] ∧
  spawned st = S k.

(** The shape of the supervisor while camera [cam] is served by its first
    object, RUNNING and without a viewer since it was started at time 0. *)
Definition idling (cam : string) (st : Supervisor) : Prop :=
  activeStreams st = {[ cam := 0%nat ]} ∧
  ∃ t, heap st = [mkStreamInfo cam (Some 0%nat) 0 0 t RUNNING "webrtc" 0 None].

(** Every entry of [activeStreams] leads to an object of the heap that
    carries the same camera id. *)
Definition linked (st : Supervisor) : Prop :=
  ∀ c r, activeStreams st !! c = Some r → (cameraId <$> heap st) !! r = Some c.

(** [getActiveCameras()]: the keys of [activeStreams] (listed here in the
    order in which the map is walked). *)
Definition getActiveCameras (st : Supervisor) : list string :=
  (map_to_list (activeStreams st)).*1.

(** [getStreamHealth(cameraId)]. *)
Definition getStreamHealth (cameraId : string) (st : Supervisor) : option Health :=
  streamHealth st !! cameraId.

(** [getAllStreamHealth()]. *)
Definition getAllStreamHealth (st : Supervisor) : list Health :=
  (map_to_list (streamHealth st)).*2.

(** One entry of the report of [getAllCameraHealth] (health.check.js);
    [lastSeen] is [None] for [null]. *)
Record CameraHealth : Type := mkCameraHealth {
  ch_cameraId : string;
  ch_status : string;
  ch_message : string;
  ch_lastSeen : option Z;
  ch_streamStatus : Status;
  ch_viewerCount : Z;
  ch_uptime : Z
}.

(** [getAllCameraHealth()]: first the cameras that have a stream, then the
    cameras that only have a health record and are not in the report yet. *)
Definition getAllCameraHealth (now : Z) (st : Supervisor) : list CameraHealth :=
  let streaming :=
    map (λ cameraId,
           let stream :=
             match activeStreams st !! cameraId with
             | Some r => heap st !! r
             | None => None
             end in
           let health := getStreamHealth cameraId st in
           mkCameraHealth cameraId
             (match health with
              | Some h => if truthy (h_status h) then h_status h else "UNKNOWN"
              | None => "UNKNOWN"
              end)
             (match health with
              | Some h => if truthy (h_message h) then h_message h else "No health data"
              | None => "No health data"
              end)
             (h_lastSeen <$> health)
             (match stream with Some si => status si | None => STOPPED end)
             (match stream with Some si => viewerCount si | None => 0 end)
             (match stream with Some si => now - startedAt si | None => 0 end))
        (getActiveCameras st) in
  fold_left
    (λ healthStatus health,
       if existsb (λ h, String.eqb (ch_cameraId h) (h_cameraId health)) healthStatus
       then healthStatus
       else (healthStatus ++
             [mkCameraHealth (h_cameraId health) (h_status health) (h_message health)
                (Some (h_lastSeen health)) STOPPED 0 0])%list)
    (getAllStreamHealth st) streaming.

(** The answers of the gateway's two camera routes in server.js. *)
Inductive GatewayResponse : Type :=
| GwError (code : Z) (error : string)
| GwRegistered (cameraId : string)
| GwCameras (cameras : list (list (string * (string + bool)))) (count : nat).

(** POST /register-camera; absent strings of the body are empty, an absent
    [enabled] is [None]. *)
Definition postRegisterCamera (body : CameraInput) (st : Supervisor)
    : GatewayResponse * Supervisor :=
  if negb (truthy (i_cameraId body)) || negb (truthy (i_rtspUrl body))
  then (GwError 400 "cameraId and rtspUrl are required", st)
  else
    match registerCamera
            (mkCameraInput (i_cameraId body) (i_rtspUrl body)
               (Some (match i_location body with
                      | Some l => if truthy l then l else "Unknown"
                      | None => "Unknown"
                      end))
               (Some (match i_enabled body with Some false => false | _ => true end)))
            st with
    | (None, st') => (GwRegistered (i_cameraId body), st')
    | (Some message, st') => (GwError 500 message, st')
    end.

(** GET /cameras of the gateway: id, location and [enabled] of every
    registered camera. *)
Definition getCamerasList (st : Supervisor) : GatewayResponse :=
  let cameras :=
    map (λ kv : string * CameraConfig,
           [ ("cameraId", inl (c_cameraId kv.2)) ]
           ++ match location kv.2 with
              | Some l => [ ("location", inl l) ]
              | None => []
              end
           ++ [ ("enabled", inr (enabled kv.2)) ])%list
        (map_to_list (cameraRegistry st)) in
  GwCameras cameras (length cameras).

End Rtsp.


Module Sessions.

Record Media : Type := mkMedia {
  videoEnabled : bool;
  audioEnabled : bool
}.

Record MediaState : Type := mkMediaState {
  kiosk : Media;
  monitor : Media
}.

(** A session object of the store.  [None] is [null]. *)
Record Session : Type := mkSession {
  kioskId : string;
  monitorId : string;
  monitorSocketId : string;
  startedAt : Z;
  lastActivityAt : Z;
  status : string;
  callState : string;
  callInitiatedBy : option string;
  callStartedAt : option Z;
  mediaState : MediaState
}.

(** [sessions]: kioskId |-> session. *)
Abbreviation Store := (gmap string Session).

Definition set_lastActivityAt (t : Z) (s : Session) : Session :=
  mkSession (kioskId s) (monitorId s) (monitorSocketId s) (startedAt s) t
    (status s) (callState s) (callInitiatedBy s) (callStartedAt s) (mediaState s).

Definition set_call (cs : string) (by_ : option string) (at_ : option Z)
    (s : Session) : Session :=
  mkSession (kioskId s) (monitorId s) (monitorSocketId s) (startedAt s)
    (lastActivityAt s) (status s) cs by_ at_ (mediaState s).

Definition set_mediaState (m : MediaState) (s : Session) : Session :=
  mkSession (kioskId s) (monitorId s) (monitorSocketId s) (startedAt s)
    (lastActivityAt s) (status s) (callState s) (callInitiatedBy s)
    (callStartedAt s) m.

(** A function that returns a value or throws an [Error] with a message. *)
Inductive Outcome (A : Type) : Type :=
| Returned (a : A)
| Threw (message : string).
Arguments Returned {A} a.
Arguments Threw {A} message.

(** [createSession(kioskId, monitorId, monitorSocketId)]. *)
Definition createSession (kioskId monitorId monitorSocketId : string) (now : Z)
    (sessions : Store) : Outcome Session * Store :=
  if negb (truthy kioskId) || negb (truthy monitorId) || negb (truthy monitorSocketId)
  then (Threw "kioskId, monitorId, and monitorSocketId are required", sessions)
  else match sessions !! kioskId with
  | Some _ => (Threw ("Session already exists for kiosk: " +:+ kioskId), sessions)
  | None =>
    let sessionData :=
      mkSession kioskId monitorId monitorSocketId now now "active"
        "idle" None None
        (mkMediaState (mkMedia false false) (mkMedia false false)) in
    (Returned sessionData, <[kioskId := sessionData]> sessions)
  end.

(** [endSession(kioskId)]: the ended copy (or [null]) and the store. *)
Definition endSession (kioskId : string) (sessions : Store) : option Session * Store :=
  if negb (truthy kioskId) then (None, sessions)
  else match sessions !! kioskId with
  | None => (None, sessions)
  | Some session =>
    (Some (mkSession (Sessions.kioskId session) (monitorId session)
             (monitorSocketId session) (startedAt session) (lastActivityAt session)
             "ended" (callState session) (callInitiatedBy session)
             (callStartedAt session) (mediaState session)),
     delete kioskId sessions)
  end.

(** [endSessionByMonitorSocket(monitorSocketId)], as far as the store goes:
    every session of that socket is ended. *)
Definition endSessionByMonitorSocket (monitorSocketId : string) (sessions : Store)
    : Store :=
  if negb (truthy monitorSocketId) then sessions
  else filter (λ kv, Sessions.monitorSocketId kv.2 ≠ monitorSocketId) sessions.

(** [endSessionByKiosk(kioskId)]. *)
Definition endSessionByKiosk (kioskId : string) (sessions : Store)
    : option Session * Store :=
  endSession kioskId sessions.

(** [getSession(kioskId)]. *)
Definition getSession (kioskId : string) (sessions : Store) : option Session :=
  if negb (truthy kioskId) then None else sessions !! kioskId.

(** [updateSessionActivity(kioskId)]. *)
Definition updateSessionActivity (kioskId : string) (now : Z) (sessions : Store)
    : bool * Store :=
  if negb (truthy kioskId) then (false, sessions)
  else match sessions !! kioskId with
  | None => (false, sessions)
  | Some session => (true, <[kioskId := set_lastActivityAt now session]> sessions)
  end.

(** [hasActiveSession(kioskId)]. *)
Definition hasActiveSession (kioskId : string) (sessions : Store) : bool :=
  if negb (truthy kioskId) then false
  else match sessions !! kioskId with
  | Some session => String.eqb (status session) "active"
  | None => false
  end.

(** [validateSessionOwnership(kioskId, monitorSocketId)]. *)
Definition validateSessionOwnership (kioskId monitorSocketId : string)
    (sessions : Store) : bool :=
  if negb (truthy kioskId) || negb (truthy monitorSocketId) then false
  else match sessions !! kioskId with
  | Some session =>
    if negb (String.eqb (status session) "active") then false
    else String.eqb (Sessions.monitorSocketId session) monitorSocketId
  | None => false
  end.

(** [updateCallState(kioskId, callState, initiatedBy = null)]. *)
Definition updateCallState (kioskId callState : string) (initiatedBy : option string)
    (now : Z) (sessions : Store) : bool * Store :=
  if negb (truthy kioskId) || negb (truthy callState) then (false, sessions)
  else match sessions !! kioskId with
  | None => (false, sessions)
  | Some session =>
    let by1 :=
      match initiatedBy with
      | Some who => if truthy who then Some who else callInitiatedBy session
      | None => callInitiatedBy session
      end in
    let at1 :=
      if String.eqb callState "connected"
      then match callStartedAt session with
           | None => Some now
           | Some t => Some t
           end
      else callStartedAt session in
    let '(by2, at2) :=
      if String.eqb callState "ended" || String.eqb callState "idle"
      then (None, None) else (by1, at1) in
    (true, <[kioskId := set_call callState by2 at2 session]> sessions)
  end.

(** The [mediaState] argument of [updateMediaState]: [None] is a field that
    is [undefined]. *)
Record MediaUpdate : Type := mkMediaUpdate {
  u_videoEnabled : option bool;
  u_audioEnabled : option bool
}.

Definition apply_update (u : MediaUpdate) (m : Media) : Media :=
  mkMedia
    (match u_videoEnabled u with Some b => b | None => videoEnabled m end)
    (match u_audioEnabled u with Some b => b | None => audioEnabled m end).

(** [updateMediaState(kioskId, role, mediaState)]; a [mediaState] of [None]
    is a falsy argument. *)
Definition updateMediaState (kioskId role : string) (mediaState : option MediaUpdate)
    (sessions : Store) : bool * Store :=
  match mediaState with
  | None => (false, sessions)
  | Some u =>
    if negb (truthy kioskId) || negb (truthy role) then (false, sessions)
    else match sessions !! kioskId with
    | None => (false, sessions)
    | Some session =>
      let ms := Sessions.mediaState session in
      let ms' :=
        if String.eqb role "kiosk"
        then mkMediaState (apply_update u (kiosk ms)) (monitor ms)
        else if String.eqb role "monitor"
        then mkMediaState (kiosk ms) (apply_update u (monitor ms))
        else ms in
      (true, <[kioskId := set_mediaState ms' session]> sessions)
    end
  end.

(** Calls into the session store. *)
Inductive Event : Type :=
| EvCreateSession (kioskId monitorId monitorSocketId : string) (now : Z)
| EvEndSession (kioskId : string)
| EvEndSessionByMonitorSocket (monitorSocketId : string)
| EvEndSessionByKiosk (kioskId : string)
| EvUpdateSessionActivity (kioskId : string) (now : Z)
| EvUpdateCallState (kioskId callState : string) (initiatedBy : option string) (now : Z)
| EvUpdateMediaState (kioskId role : string) (mediaState : option MediaUpdate).

Definition step (sessions : Store) (ev : Event) : Store :=
  match ev with
  | EvCreateSession k m sock now => (createSession k m sock now sessions).2
  | EvEndSession k => (endSession k sessions).2
  | EvEndSessionByMonitorSocket sock => endSessionByMonitorSocket sock sessions
  | EvEndSessionByKiosk k => (endSessionByKiosk k sessions).2
  | EvUpdateSessionActivity k now => (updateSessionActivity k now sessions).2
  | EvUpdateCallState k cs who now => (updateCallState k cs who now sessions).2
  | EvUpdateMediaState k role m => (updateMediaState k role m sessions).2
  end.

Definition run (sessions : Store) (evs : list Event) : Store :=
  fold_left step evs sessions.

(** [setSessionTimeout(timeoutMs)] on the module variable SESSION_TIMEOUT_MS. *)
Definition setSessionTimeout (timeoutMs : Z) (SESSION_TIMEOUT_MS : Z) : Z :=
  if 0 <? timeoutMs then timeoutMs else SESSION_TIMEOUT_MS.

(** [getTimedOutSessions(timeoutMs = SESSION_TIMEOUT_MS)]; [None] is an
    omitted argument.  Each reported object is the session with [kioskId]
    set to its key.  The report is listed in the order in which the map is
    walked. *)
Definition getTimedOutSessions (timeoutMs : option Z) (SESSION_TIMEOUT_MS : Z)
    (now : Z) (sessions : Store) : list Session :=
  let timeout := match timeoutMs with Some t => t | None => SESSION_TIMEOUT_MS end in
  omap (λ kv : string * Session,
          if negb (String.eqb (status kv.2) "active") then None
          else if timeout <? now - lastActivityAt kv.2
          then Some (mkSession kv.1 (monitorId kv.2) (monitorSocketId kv.2)
                       (startedAt kv.2) (lastActivityAt kv.2) (status kv.2)
                       (callState kv.2) (callInitiatedBy kv.2) (callStartedAt kv.2)
                       (mediaState kv.2))
          else None)
       (map_to_list sessions).

(** What every entry of the store looks like: the session sits under its
    own kiosk id, is active, and none of its three ids is empty. *)
Definition session_ok (k : string) (s : Session) : Prop :=
  kioskId s = k ∧ status s = "active" ∧ truthy k = true ∧
  truthy (monitorId s) = true ∧ truthy (monitorSocketId s) = true.

(** Invariants I5 and I6 of one session. *)
Definition call_invariant (s : Session) : Prop :=
  (callState s = "connected" → callStartedAt s ≠ None) ∧
  (callState s = "idle" ∨ callState s = "ended" →
   callInitiatedBy s = None ∧ callStartedAt s = None).

(** What a client gets back for [start-monitoring]. *)
Inductive Reply : Type :=
| MonitoringStarted (kioskId : string)
| ErrorReply (code : string).

(** The session object that [createSession] builds and stores. *)
Definition sessionData (kioskId monitorId monitorSocketId : string) (now : Z) : Session :=
  mkSession kioskId monitorId monitorSocketId now now "active" "idle" None None
    (mkMediaState (mkMedia false false) (mkMedia false false)).

(** Modelled from the spec: the [start-monitoring] handler of the signaling
    hub, whose source file is not among the sources.  Section 4.1: the
    command "fails with KIOSK_NOT_FOUND if the kiosk is not present,
    SESSION_CONFLICT if `kiosks` already has a session whose owner differs
    from this monitor, otherwise creates the session in callState=IDLE and
    replies monitoring-started".  Presence is the [kiosks] map.  The owner of
    a session is the monitor whose connection handle the session holds (P2),
    which is what [validateSessionOwnership] of the session store tests.  The
    session that is created is the object that [createSession] builds. *)
Definition startMonitoring (kiosks : gmap string Z)
    (kioskId monitorId monitorSocketId : string) (now : Z) (sessions : Store)
    : Reply * Store :=
  match kiosks !! kioskId with
  | None => (ErrorReply "KIOSK_NOT_FOUND", sessions)
  | Some _ =>
    match sessions !! kioskId with
    | Some _ =>
      if negb (validateSessionOwnership kioskId monitorSocketId sessions)
      then (ErrorReply "SESSION_CONFLICT", sessions)
      else (MonitoringStarted kioskId,
            <[kioskId := sessionData kioskId monitorId monitorSocketId now]> sessions)
    | None =>
      (MonitoringStarted kioskId,
       <[kioskId := sessionData kioskId monitorId monitorSocketId now]> sessions)
    end
  end.

(** A store in which monitor MONITOR_01 watches KIOSK_01 and their call is
    connected. *)
Definition in_call : Store :=
  run ∅ [ EvCreateSession "KIOSK_01" "MONITOR_01" "socket-1" 0;
          EvUpdateCallState "KIOSK_01" "connecting" (Some "monitor") 1000;
          EvUpdateCallState "KIOSK_01" "connected" None 2000 ].

End Sessions.

Module Registry.

(** JavaScript values that occur in the objects the registry hands out. *)
Inductive JsVal : Type :=
| VStr (s : string)
| VBool (b : bool)
| VDate (t : Z).

(** An object literal: its own properties, in the order they are written. *)
Abbreviation JsObject := (list (string * JsVal)).

(** [name in obj]. *)
Definition has_field (name : string) (obj : JsObject) : bool :=
  existsb (λ kv, String.eqb kv.1 name) obj.

(** [obj[name]]; [None] is [undefined]. *)
Fixpoint get_field (name : string) (obj : JsObject) : option JsVal :=
  match obj with
  | [] => None
  | (k, v) :: rest => if String.eqb k name then Some v else get_field name rest
  end.

(** A [cameraData] object as the registry stores it. *)
Record CameraData : Type := mkCameraData {
  cameraId : string;
  rtspUrl : string;
  location : string;
  enabled : bool;
  registeredAt : Z;
  status : string;
  lastStatusUpdate : Z
}.

(** The [config] argument of [registerCamera]: absent strings are empty,
    absent [enabled] is [None]. *)
Record CameraInput : Type := mkCameraInput {
  i_cameraId : string;
  i_rtspUrl : string;
  i_location : string;
  i_enabled : option bool
}.

(** [cameras]: a [Map], kept in insertion order as [values()] lists it.  A
    key occurs at most once: [registerCamera] refuses a key that is present. *)
Abbreviation Cameras := (list (string * CameraData)).

Fixpoint lookup_camera (cameraId : string) (cameras : Cameras) : option CameraData :=
  match cameras with
  | [] => None
  | (k, c) :: rest => if String.eqb k cameraId then Some c else lookup_camera cameraId rest
  end.

Inductive Outcome (A : Type) : Type :=
| Returned (a : A)
| Threw (message : string).
Arguments Returned {A} a.
Arguments Threw {A} message.

(** [registerCamera(config)]. *)
Definition registerCamera (config : CameraInput) (now : Z) (cameras : Cameras)
    : Outcome JsObject * Cameras :=
  if negb (truthy (i_cameraId config)) || negb (truthy (i_rtspUrl config))
  then (Threw "cameraId and rtspUrl are required", cameras)
  else if negb (String.prefix "rtsp://" (i_rtspUrl config))
  then (Threw "rtspUrl must start with rtsp://", cameras)
  else match lookup_camera (i_cameraId config) cameras with
  | Some _ => (Threw ("Camera " +:+ i_cameraId config +:+ " already registered"), cameras)
  | None =>
    let cameraData :=
      mkCameraData (i_cameraId config) (i_rtspUrl config)
        (if truthy (i_location config) then i_location config else "Unknown")
        (match i_enabled config with Some false => false | _ => true end)
        now "OFFLINE" now in
    (Returned [ ("cameraId", VStr (cameraId cameraData));
                ("location", VStr (location cameraData));
                ("enabled", VBool (enabled cameraData));
                ("registeredAt", VDate (registeredAt cameraData));
                ("status", VStr (status cameraData)) ],
     (cameras ++ [(i_cameraId config, cameraData)])%list)
  end.

(** The object literal that [getCamera] and [getAllCameras] build. *)
Definition project (camera : CameraData) : JsObject :=
  [ ("cameraId", VStr (cameraId camera));
    ("location", VStr (location camera));
    ("enabled", VBool (enabled camera));
    ("registeredAt", VDate (registeredAt camera));
    ("status", VStr (status camera));
    ("lastStatusUpdate", VDate (lastStatusUpdate camera)) ].

(** [getCamera(cameraId)]; [None] is [null]. *)
Definition getCamera (cameraId : string) (cameras : Cameras) : option JsObject :=
  if negb (truthy cameraId) then None
  else match lookup_camera cameraId cameras with
       | None => None
       | Some camera => Some (project camera)
       end.

(** [getAllCameras(enabledOnly = false)]. *)
Definition getAllCameras (enabledOnly : bool) (cameras : Cameras) : list JsObject :=
  let allCameras := map (λ kv, project kv.2) cameras in
  if enabledOnly
  then List.filter (λ camera, match get_field "enabled" camera with
                              | Some (VBool b) => b
                              | Some (VStr s) => truthy s
                              | Some (VDate _) => true
                              | None => false
                              end) allCameras
  else allCameras.

(** [getEnabledCameras()]. *)
Definition getEnabledCameras (cameras : Cameras) : list JsObject :=
  getAllCameras true cameras.

(** [getRTSPUrl(cameraId)], for internal use. *)
Definition getRTSPUrl (cameraId : string) (cameras : Cameras) : option string :=
  match lookup_camera cameraId cameras with
  | Some camera => Some (rtspUrl camera)
  | None => None
  end.

(** [hasCamera(cameraId)]. *)
Definition hasCamera (cameraId : string) (cameras : Cameras) : bool :=
  match lookup_camera cameraId cameras with
  | Some _ => true
  | None => false
  end.

(** [isCameraEnabled(cameraId)]. *)
Definition isCameraEnabled (cameraId : string) (cameras : Cameras) : bool :=
  match lookup_camera cameraId cameras with
  | Some camera => enabled camera
  | None => false
  end.

(** An assignment to fields of the object that [cameras.get(cameraId)]
    returns: the object is changed where it sits in the map. *)
Fixpoint update_camera (cameraId : string) (f : CameraData → CameraData)
    (cameras : Cameras) : Cameras :=
  match cameras with
  | [] => []
  | (k, c) :: rest =>
    if String.eqb k cameraId then (k, f c) :: rest
    else (k, c) :: update_camera cameraId f rest
  end.

(** [cameras.delete(cameraId)], as far as the map goes. *)
Fixpoint delete_camera (cameraId : string) (cameras : Cameras) : Cameras :=
  match cameras with
  | [] => []
  | (k, c) :: rest =>
    if String.eqb k cameraId then rest
    else (k, c) :: delete_camera cameraId rest
  end.

Definition validStatuses : list string := ["ONLINE"; "OFFLINE"; "ERROR"].

(** [updateCameraStatus(cameraId, status)]. *)
Definition updateCameraStatus (cameraId status : string) (now : Z) (cameras : Cameras)
    : bool * Cameras :=
  if negb (truthy cameraId) || negb (truthy status) then (false, cameras)
  else if negb (existsb (String.eqb status) validStatuses) then (false, cameras)
  else match lookup_camera cameraId cameras with
  | None => (false, cameras)
  | Some _ =>
    (true,
     update_camera cameraId
       (λ camera, mkCameraData (Registry.cameraId camera) (rtspUrl camera)
                    (location camera) (enabled camera) (registeredAt camera)
                    status now) cameras)
  end.

(** [setCameraEnabled(cameraId, enabled)]. *)
Definition setCameraEnabled (cameraId : string) (enabled : bool) (cameras : Cameras)
    : bool * Cameras :=
  match lookup_camera cameraId cameras with
  | None => (false, cameras)
  | Some _ =>
    (true,
     update_camera cameraId
       (λ camera, mkCameraData (Registry.cameraId camera) (rtspUrl camera)
                    (location camera) enabled (registeredAt camera)
                    (status camera) (lastStatusUpdate camera)) cameras)
  end.

(** [removeCamera(cameraId)]. *)
Definition removeCamera (cameraId : string) (cameras : Cameras) : bool * Cameras :=
  (hasCamera cameraId cameras, delete_camera cameraId cameras).

(** The object that [getCameraStats()] returns. *)
Record CameraStats : Type := mkCameraStats {
  total : nat;
  stat_enabled : nat;
  online : nat;
  offline : nat;
  error : nat
}.

(** [getCameraStats()]. *)
Definition getCameraStats (cameras : Cameras) : CameraStats :=
  let all := map snd cameras in
  mkCameraStats
    (length all)
    (length (List.filter (λ c, enabled c) all))
    (length (List.filter (λ c, String.eqb (status c) "ONLINE") all))
    (length (List.filter (λ c, String.eqb (status c) "OFFLINE") all))
    (length (List.filter (λ c, String.eqb (status c) "ERROR") all)).

(** Calls that change the registry. *)
Inductive Event : Type :=
| EvRegisterCamera (config : CameraInput) (now : Z)
| EvUpdateCameraStatus (cameraId status : string) (now : Z)
| EvSetCameraEnabled (cameraId : string) (enabled : bool)
| EvRemoveCamera (cameraId : string).

Definition step (cameras : Cameras) (ev : Event) : Cameras :=
  match ev with
  | EvRegisterCamera config now => (registerCamera config now cameras).2
  | EvUpdateCameraStatus cameraId status now =>
    (updateCameraStatus cameraId status now cameras).2
  | EvSetCameraEnabled cameraId enabled => (setCameraEnabled cameraId enabled cameras).2
  | EvRemoveCamera cameraId => (removeCamera cameraId cameras).2
  end.

Definition run (cameras : Cameras) (evs : list Event) : Cameras :=
  fold_left step evs cameras.

(** What every entry of a registry looks like: it sits under its own
    non-empty id, its URL is an RTSP URL and its status is one of the three
    valid ones. *)
Definition entry_ok (kv : string * CameraData) : Prop :=
  cameraId kv.2 = kv.1 ∧ truthy kv.1 = true ∧
  String.prefix "rtsp://" (rtspUrl kv.2) = true ∧
  status kv.2 ∈ validStatuses.

Definition well_formed (cameras : Cameras) : Prop :=
  NoDup cameras.*1 ∧ Forall entry_ok cameras.

(** A registry with two cameras, the second one disabled. *)
Definition two_cameras : Cameras :=
  (registerCamera (mkCameraInput "CCTV_02" "rtsp://admin:pw@10.0.0.2/stream" "" (Some false)) 20
     (registerCamera (mkCameraInput "CCTV_01" "rtsp://admin:pw@10.0.0.1/stream" "Platform 1" None) 10
        []).2).2.

End Registry.

Module ControlApi.
Import Registry.

(** [s.includes(sub)]. *)
Fixpoint includes (sub s : string) : bool :=
  String.prefix sub s ||
  match s with
  | EmptyString => false
  | String _ s' => includes sub s'
  end.

(** The payload that [generateStreamToken] signs.  [expiresAt] and [issuedAt]
    are written as ISO strings; they are kept here as the milliseconds they
    denote. *)
Record TokenClaims : Type := mkTokenClaims {
  t_cameraId : string;
  t_expiresAt : Z;
  t_permissions : list string;
  t_issuedAt : Z;
  t_monitorId : string;
  t_iat : Z
}.

(** The object that [generateStreamToken] returns. *)
Record StreamTokenData : Type := mkStreamTokenData {
  token : string;
  expiresAt : Z;
  tokenCameraId : string
}.

(** The object that [validateCameraAccess] returns. *)
Record Access : Type := mkAccess {
  allowed : bool;
  accessError : option string
}.

(** The [req.user] that [authenticateRequest] attaches. *)
Record User : Type := mkUser {
  clientId : string;
  role : string
}.

(** Outcome of [jwt.verify] on a client identity token. *)
Inductive IdentityResult : Type :=
| IdDecoded (user : User)
| IdThrows (name : string).

(** One entry of the [cameras] array of a health callback; absent fields are
    empty strings. *)
Record HealthReport : Type := mkHealthReport {
  hr_cameraId : string;
  hr_status : string;
  hr_message : string
}.

(** An HTTP answer of the CCTV routes: an error body, or one of the success
    bodies. *)
Inductive Response : Type :=
| RespError (code : Z) (error : string)
| RespCameras (cameras : list JsObject) (count : nat)
| RespCamera (camera : JsObject)
| RespToken (token : string) (expiresAt : Z) (cameraId : string)
| RespHealth (updated errors total : nat)
| RespRegistered (camera : JsObject).

Definition response_code (r : Response) : Z :=
  match r with
  | RespError code _ => code
  | RespRegistered _ => 201
  | _ => 200
  end.

(** The camera objects that a response body carries. *)
Definition response_objects (r : Response) : list JsObject :=
  match r with
  | RespCameras cameras _ => cameras
  | RespCamera camera => [camera]
  | RespRegistered camera => [camera]
  | _ => []
  end.

Section Routes.

(** [ROLES.MONITOR] of auth.middleware.js, [STREAM_TOKEN_TTL] (seconds) and
    [GATEWAY_SECRET] ([None] when not configured) from the environment, and
    the two calls into the jsonwebtoken package: [jwt.sign(payload,
    JWT_SECRET, {expiresIn})] and [jwt.verify] on identity tokens. *)
Variable MONITOR : string.
Variable STREAM_TOKEN_TTL : Z.
Variable GATEWAY_SECRET : option string.
Variable jwt_sign : TokenClaims → Z → string.
Variable jwt_verify_identity : string → Z → IdentityResult.

(** [generateStreamToken(cameraId, monitorId)]. *)
Definition generateStreamToken (cameraId monitorId : string) (now : Z)
    (cameras : Cameras) : Outcome StreamTokenData :=
  match getCamera cameraId cameras with
  | None => Threw ("Camera " +:+ cameraId +:+ " not found")
  | Some _ =>
    if negb (isCameraEnabled cameraId cameras)
    then Threw ("Camera " +:+ cameraId +:+ " is disabled")
    else
      let expiresAt := now + STREAM_TOKEN_TTL * 1000 in
      let payload :=
        mkTokenClaims cameraId expiresAt ["VIEW"] now monitorId (now / 1000) in
      Returned (mkStreamTokenData (jwt_sign payload STREAM_TOKEN_TTL) expiresAt cameraId)
  end.

(** [validateCameraAccess(cameraId, role)]. *)
Definition validateCameraAccess (cameraId role : string) (cameras : Cameras) : Access :=
  if negb (String.eqb role MONITOR)
  then mkAccess false (Some "Only MONITOR role can access cameras")
  else match getCamera cameraId cameras with
  | None => mkAccess false (Some ("Camera " +:+ cameraId +:+ " not found"))
  | Some _ =>
    if negb (isCameraEnabled cameraId cameras)
    then mkAccess false (Some ("Camera " +:+ cameraId +:+ " is disabled"))
    else mkAccess true None
  end.

(** [authenticateRequest]: the user for [next()], or the answer sent.
    [None] is a request without an Authorization header. *)
Definition authenticateRequest (authHeader : option string) (now : Z)
    : Response + User :=
  match authHeader with
  | None => inl (RespError 401 "Authorization header required (Bearer token)")
  | Some h =>
    if negb (truthy h) || negb (String.prefix "Bearer " h)
    then inl (RespError 401 "Authorization header required (Bearer token)")
    else match jwt_verify_identity (String.substring 7 (String.length h - 7) h) now with
    | IdDecoded user => inr user
    | IdThrows name =>
      if String.eqb name "TokenExpiredError"
      then inl (RespError 401 "Token expired")
      else inl (RespError 401 "Invalid token")
    end
  end.

(** [requireMonitor]: [None] is [next()]. *)
Definition requireMonitor (user : User) : option Response :=
  if negb (String.eqb (role user) MONITOR)
  then Some (RespError 403 "Only MONITOR role can access cameras")
  else None.

(** GET /cameras, with [enabled] the query parameter ([None] when absent). *)
Definition getCamerasRoute (authHeader enabled : option string) (now : Z)
    (cameras : Cameras) : Response :=
  match authenticateRequest authHeader now with
  | inl resp => resp
  | inr user =>
    match requireMonitor user with
    | Some resp => resp
    | None =>
      let result :=
        match enabled with
        | Some e => if String.eqb e "true" then getEnabledCameras cameras
                    else getAllCameras false cameras
        | None => getAllCameras false cameras
        end in
      RespCameras result (length result)
    end
  end.

(** GET /cameras/:cameraId. *)
Definition getCameraRoute (authHeader : option string) (cameraId : string) (now : Z)
    (cameras : Cameras) : Response :=
  match authenticateRequest authHeader now with
  | inl resp => resp
  | inr user =>
    match requireMonitor user with
    | Some resp => resp
    | None =>
      match getCamera cameraId cameras with
      | None => RespError 404 ("Camera " +:+ cameraId +:+ " not found")
      | Some camera => RespCamera camera
      end
    end
  end.


(** The loop of the health callback over the reported cameras: the two
    counters and the registry. *)
Definition applyHealthReport (now : Z) (acc : nat * nat * Cameras) (h : HealthReport)
    : nat * nat * Cameras :=
  let '(updated, errors, cameras) := acc in
  if negb (truthy (hr_cameraId h)) || negb (truthy (hr_status h))
  then (updated, S errors, cameras)
  else
    let '(success, cameras') :=
      updateCameraStatus (hr_cameraId h) (hr_status h) now cameras in
    if success then (S updated, errors, cameras') else (updated, S errors, cameras').


(** POST /health-callback behind [validateGatewaySecret].  [provided] is the
    x-gateway-secret header or the [secret] of the body ([None] when both are
    absent or empty); [reports] is the [cameras] of the body, [None] when it
    is absent or not an array. *)
Definition healthCallbackRoute (provided : option string)
    (reports : option (list HealthReport)) (now : Z) (cameras : Cameras)
    : Response * Cameras :=
  if match GATEWAY_SECRET with
     | None => false
     | Some secret => negb (bool_decide (provided = Some secret))
     end
  then (RespError 401 "Invalid gateway secret", cameras)
  else match reports with
  | None => (RespError 400 "cameras array is required", cameras)
  | Some hs =>
    let '(updated, errors, cameras') := fold_left (applyHealthReport now) hs (0%nat, 0%nat, cameras) in
    (RespHealth updated errors (length hs), cameras')
  end.

(** The body of POST /cameras; absent strings are empty, an absent [enabled]
    is [None]. *)
Record RegisterBody : Type := mkRegisterBody {
  b_cameraId : string;
  b_rtspUrl : string;
  b_location : string;
  b_enabled : option bool
}.

Definition str_field (name : string) (obj : JsObject) : JsObject :=
  match get_field name obj with
  | Some v => [(name, v)]
  | None => []
  end.

(** POST /cameras: any authenticated client may register a camera. *)
Definition postCamerasRoute (authHeader : option string) (body : RegisterBody)
    (now : Z) (cameras : Cameras) : Response * Cameras :=
  match authenticateRequest authHeader now with
  | inl resp => (resp, cameras)
  | inr user =>
    if negb (truthy (b_cameraId body)) || negb (truthy (b_rtspUrl body))
    then (RespError 400 "cameraId and rtspUrl are required", cameras)
    else
      match registerCamera
              (mkCameraInput (b_cameraId body) (b_rtspUrl body)
                 (if truthy (b_location body) then b_location body else "Unknown")
                 (Some (match b_enabled body with Some false => false | _ => true end)))
              now cameras with
      | (Returned camera, cameras') =>
        (RespRegistered
           (str_field "cameraId" camera ++ str_field "location" camera
            ++ str_field "enabled" camera ++ str_field "status" camera)%list,
         cameras')
      | (Threw message, cameras') =>
        if includes "required" message || includes "rtsp://" message
           || includes "already" message
        then (RespError 400 message, cameras')
        else (RespError 500 "Failed to register camera", cameras')
      end
  end.

End Routes.

(** An identity verifier for examples: the bearer token "monitor-1" belongs
    to monitor MONITOR_01, "kiosk-1" to kiosk KIOSK_01, "old" has expired and
    anything else is not a signed token. *)
Definition sample_identity (token : string) (now : Z) : IdentityResult :=
  if String.eqb token "monitor-1" then IdDecoded (mkUser "MONITOR_01" "MONITOR")
  else if String.eqb token "kiosk-1" then IdDecoded (mkUser "KIOSK_01" "KIOSK")
  else if String.eqb token "old" then IdThrows "TokenExpiredError"
  else IdThrows "JsonWebTokenError".

(** A signer for examples that hands out the sample token T1. *)
Definition sample_sign (claims : TokenClaims) (expiresIn : Z) : string := "T1".

End ControlApi.

(* ===================================================================== *)
(** * Part II: properties                                                 *)
(* ===================================================================== *)

(** ** Stream tokens and the replay set *)

Section StreamTokenFacts.
Import StreamToken.

Variable jwt_verify : string -> Z -> JwtResult.

Lemma truthy_nonempty s : truthy s = true ↔ s ≠ "".
Proof. destruct s; simpl; split; congruence. Qed.

(** A token found in the replay set is turned away before anything else is
    looked at, and the set is left alone. *)
Lemma validate_replayed token now (used : UsedTokens) v :
  truthy token = true → used !! token = Some v →
  validateStreamToken jwt_verify token now used = (invalid "Token already used", used).
Proof.
  intros Ht Hu. unfold validateStreamToken. by rewrite Ht, Hu.
Qed.

(** A call either leaves the replay set alone or adds the presented token. *)
Lemma validate_store token now (used : UsedTokens) :
  (validateStreamToken jwt_verify token now used).2 = used ∨
  (used !! token = None ∧
   ∃ v, (validateStreamToken jwt_verify token now used).2 = <[token := v]> used).
Proof.
  unfold validateStreamToken.
  destruct (truthy token); simpl; [|by left].
  destruct (used !! token) eqn:Hu; [by left|].
  destruct (jwt_verify token now) as [p|name]; [|by left].
  destruct (truthy (cameraId p)); simpl; [|by left].
  destruct (expiresAt p) as [|d]; [by left|].
  destruct (js_lt (getTime d) (Some now)); [by left|].
  right. split; [done|]. destruct d; eauto.
Qed.

Lemma validate_other token token' now (used : UsedTokens) :
  token' ≠ token →
  (validateStreamToken jwt_verify token' now used).2 !! token = used !! token.
Proof.
  intros Hne. destruct (validate_store token' now used) as [->|[_ [v ->]]]; [done|].
  by rewrite lookup_insert_ne.
Qed.

(** What an accepting call has seen and done. *)
Lemma validate_accept_inv token now (used : UsedTokens) :
  valid (validateStreamToken jwt_verify token now used).1 = true →
  ∃ p e,
    truthy token = true ∧ used !! token = None ∧
    jwt_verify token now = Decoded p ∧ truthy (cameraId p) = true ∧
    expiresAt p = ExpDate (ValidDate e) ∧ now ≤ e ∧
    v_expiresAt (validateStreamToken jwt_verify token now used).1 = Some (ValidDate e) ∧
    (validateStreamToken jwt_verify token now used).2 = <[token := Some e]> used.
Proof.
  unfold validateStreamToken.
  destruct (truthy token); simpl; [|done].
  destruct (used !! token) eqn:Hu; [done|].
  destruct (jwt_verify token now) as [p|name].
  2:{ unfold catch_error. by repeat case_match. }
  destruct (truthy (cameraId p)) eqn:Hc; simpl; [|done].
  destruct (expiresAt p) as [|d] eqn:He; [done|].
  destruct d as [e|]; simpl.
  - destruct (e <? now) eqn:Hlt; simpl; [done|].
    intros _. exists p, e. apply Z.ltb_ge in Hlt. by repeat split.
  - unfold catch_error. simpl. done.
Qed.

Lemma sweep_keeps ts (used : UsedTokens) token v :
  used !! token = Some v → js_lt v (Some ts) = false →
  sweep ts used !! token = Some v.
Proof.
  intros Hu Hk. unfold sweep. by apply map_lookup_filter_Some.
Qed.

Lemma sweep_drops ts (used : UsedTokens) token v :
  used !! token = Some v → js_lt v (Some ts) = true →
  sweep ts used !! token = None.
Proof.
  intros Hu Hk. unfold sweep. apply map_lookup_filter_None. right.
  intros x Hx. simpl. congruence.
Qed.

Lemma sweep_absent ts (used : UsedTokens) token :
  used !! token = None → sweep ts used !! token = None.
Proof.
  intros Hu. unfold sweep. apply map_lookup_filter_None. by left.
Qed.

Lemma clock_from_cons t ev evs :
  clock_from t (ev :: evs) = true ↔ t ≤ ev_time ev ∧ clock_from (ev_time ev) evs = true.
Proof.
  simpl. rewrite andb_true_iff, Z.leb_le. done.
Qed.

(** As long as no sweep runs after its expiry, an entry stays where it is. *)
Lemma replay_entry_persists token e evs (used : UsedTokens) :
  truthy token = true → used !! token = Some (Some e) →
  swept_after e evs = false →
  run jwt_verify used evs !! token = Some (Some e).
Proof.
  intros Ht. revert used. induction evs as [|ev evs IH]; intros used Hu Hs; [done|].
  simpl in Hs. apply orb_false_iff in Hs as [Hev Hs].
  unfold run. simpl. apply IH; [|done].
  destruct ev as [token' n|ts]; simpl.
  - destruct (decide (token' = token)) as [->|Hne].
    + by erewrite validate_replayed.
    + by rewrite validate_other.
  - by apply sweep_keeps.
Qed.

Section Expired.

(** [token] always decodes to one payload [p], which expires at [e]. *)
Variables (token : string) (p : Payload) (e : Z).
Hypothesis decodes : ∀ n p', jwt_verify token n = Decoded p' → p' = p.
Hypothesis camera_ok : truthy (cameraId p) = true.
Hypothesis expires : expiresAt p = ExpDate (ValidDate e).

(** Once the clock has passed [e], a call cannot put [token] into the set. *)
Lemma expired_not_inserted n (used : UsedTokens) :
  e < n → used !! token = None →
  (validateStreamToken jwt_verify token n used).2 !! token = None ∧
  valid (validateStreamToken jwt_verify token n used).1 = false ∧
  error (validateStreamToken jwt_verify token n used).1 ≠ Some "Token already used".
Proof using decodes camera_ok expires.
  intros Hn Hu. unfold validateStreamToken.
  destruct (truthy token); simpl; [|done].
  rewrite Hu. destruct (jwt_verify token n) as [p'|name] eqn:Hj.
  - apply decodes in Hj as ->. rewrite camera_ok, expires. simpl.
    apply Z.ltb_lt in Hn. rewrite Hn. done.
  - unfold catch_error. by repeat case_match.
Qed.

(** ... so an absent, expired token stays absent while the clock moves on. *)
Lemma expired_stays_out evs : ∀ (used : UsedTokens) t n,
  e < t → used !! token = None →
  clock_from t (evs ++ [EvValidate token n]) = true →
  run jwt_verify used evs !! token = None ∧ e < n.
Proof using decodes camera_ok expires.
  induction evs as [|ev evs IH]; intros used t n Ht Hu Hc.
  - apply clock_from_cons in Hc as [Hc _]. simpl in *. split; [done|lia].
  - rewrite <- app_comm_cons in Hc. apply clock_from_cons in Hc as [Hle Hc].
    unfold run. simpl. eapply IH; [| |exact Hc]; [lia|].
    destruct ev as [token' m|ts]; simpl in *.
    + destruct (decide (token' = token)) as [->|Hne].
      * apply expired_not_inserted; [lia|done].
      * by rewrite validate_other.
    + by apply sweep_absent.
Qed.

(** A sweep after [e] removes the entry for good. *)
Lemma purged_stays_out evs : ∀ (used : UsedTokens) t n,
  truthy token = true → used !! token = Some (Some e) →
  swept_after e evs = true →
  clock_from t (evs ++ [EvValidate token n]) = true →
  run jwt_verify used evs !! token = None ∧ e < n.
Proof using decodes camera_ok expires.
  induction evs as [|ev evs IH]; intros used t n Ht Hu Hs Hc; [done|].
  rewrite <- app_comm_cons in Hc. apply clock_from_cons in Hc as [Hle Hc].
  unfold run. simpl.
  destruct ev as [token' m|ts]; simpl in *.
  - eapply IH; [done| |done|exact Hc].
    destruct (decide (token' = token)) as [->|Hne].
    + by erewrite validate_replayed.
    + by rewrite validate_other.
  - destruct (e <? ts) eqn:Hts; simpl in Hs.
    + eapply expired_stays_out; [| |exact Hc].
      * by apply Z.ltb_lt.
      * eapply sweep_drops; [done|]. simpl. done.
    + eapply IH; [done| |done|exact Hc].
      eapply sweep_keeps; [done|]. simpl. done.
Qed.

End Expired.

End StreamTokenFacts.

Section StreamTokenClaims.
Import StreamToken.

(** An activity changes the replay set exactly as its event does. *)
Lemma act_as_event jwt_verify a (used : UsedTokens) :
  act jwt_verify used a = step jwt_verify used (as_event a).
Proof.
  destruct a as [[[t|] n|[t|] n]|n]; simpl; try done.
  - destruct (truthy t) eqn:Ht; simpl.
    + by destruct (validateStreamToken jwt_verify t n used).
    + unfold validateStreamToken. by rewrite Ht.
  - destruct (truthy t) eqn:Ht; simpl.
    + destruct (validateStreamToken jwt_verify t n used) as [v u]. simpl.
      by repeat case_match.
    + unfold validateStreamToken. by rewrite Ht.
Qed.

Lemma serve_all_run jwt_verify acts : ∀ used : UsedTokens,
  serve_all jwt_verify used acts = run jwt_verify used (as_event <$> acts).
Proof.
  induction acts as [|a acts IH]; intros used; [done|].
  unfold serve_all, run. simpl. rewrite act_as_event. apply IH.
Qed.

Lemma table_verify_stable issued : payload_stable (table_verify issued).
Proof.
  intros token t1 t2 p1 p2. unfold table_verify.
  destruct (list_to_map issued !! token) as [[p [x|]]|]; repeat case_match; congruence.
Qed.

(** C1, as the claim words it, fails: T1 is accepted at 50000 ms, the sweep
    that runs at 400000 ms removes its entry (its expiry 100000 is in the
    past), and the next call with the same string answers 'Token expired',
    not 'Token already used'. *)
Lemma replayed_token_after_sweep_reports_expired :
  let first := validateStreamToken sample_verify "T1" 50000 ∅ in
  let later := validateStreamToken sample_verify "T1" 400001
                 (run sample_verify first.2 [EvSweep 400000]) in
  valid first.1 = true ∧
  error later.1 = Some "Token expired" ∧
  error later.1 ≠ Some "Token already used".
Proof. vm_compute. repeat split; congruence. Qed.

(** C1 (amended): with a clock that does not run backwards, a token that
    [validateStreamToken] accepted once is rejected by every later call with
    the same string; the error is 'Token already used' exactly as long as no
    sweep has run after the token's expiry (the sweep then removes the entry
    and the call fails on the expiry or inside [jwt.verify] instead). *)
Theorem token_accepted_once jwt_verify token now (used : UsedTokens) evs now' :
  payload_stable jwt_verify →
  valid (validateStreamToken jwt_verify token now used).1 = true →
  clock_from now (evs ++ [EvValidate token now']) = true →
  let first := validateStreamToken jwt_verify token now used in
  let later := validateStreamToken jwt_verify token now' (run jwt_verify first.2 evs) in
  valid later.1 = false ∧
  ∃ e, v_expiresAt first.1 = Some (ValidDate e) ∧
       (error later.1 = Some "Token already used" ↔ swept_after e evs = false).
Proof.
  intros Hst Hacc Hclk first later. subst first later.
  destruct (validate_accept_inv _ _ _ _ Hacc)
    as (p & e & Ht & Hu & Hj & Hc & He & Hle & Hv & Hs).
  rewrite Hs, Hv.
  assert (Hin : (<[token := Some e]> used : UsedTokens) !! token = Some (Some e))
    by apply lookup_insert_eq.
  destruct (swept_after e evs) eqn:Hsw.
  - assert (Hdec : ∀ n p', jwt_verify token n = Decoded p' → p' = p).
    { intros n p' Hn. symmetry. eapply Hst; eauto. }
    destruct (purged_stays_out jwt_verify token p e Hdec Hc He evs _ now now' Ht Hin Hsw Hclk)
      as [Hout Hlt].
    destruct (expired_not_inserted jwt_verify token p e Hdec Hc He now' _ Hlt Hout)
      as (_ & Hinv & Herr).
    split; [done|]. exists e. split; [done|]. rewrite Hsw.
    split; [intros Hx; by destruct Herr|discriminate].
  - pose proof (replay_entry_persists jwt_verify token e evs _ Ht Hin Hsw) as Hp.
    erewrite validate_replayed; [|done|exact Hp]. simpl.
    split; [done|]. exists e. rewrite Hsw. done.
Qed.

Lemma token_accepted_once_witness :
  let first := validateStreamToken sample_verify "T1" 50000 ∅ in
  let later := validateStreamToken sample_verify "T1" 400001
                 (run sample_verify first.2 [EvSweep 400000]) in
  valid later.1 = false ∧
  ∃ e, v_expiresAt first.1 = Some (ValidDate e) ∧
       (error later.1 = Some "Token already used" ↔
        swept_after e [EvSweep 400000] = false).
Proof.
  apply (token_accepted_once sample_verify "T1" 50000 ∅ [EvSweep 400000] 400001).
  - apply table_verify_stable.
  - vm_compute. reflexivity.
  - vm_compute. reflexivity.
Defined.

(** C4, as the claim words it, fails: T2 carries a good signature and
    expiresAt = 100000; presented at exactly 100000 ms it is accepted. *)
Lemma token_at_expiry_is_accepted :
  let r := (validateStreamToken sample_verify "T2" 100000 ∅).1 in
  valid r = true ∧ error r = None ∧ v_expiresAt r = Some (ValidDate 100000).
Proof. vm_compute. repeat split. Qed.

(** C4 (amended): for a fresh token that [jwt.verify] decodes, the gateway's
    own expiry check rejects with 'Token expired' exactly when expiresAt is
    strictly before the current time; at expiresAt = now, and at any earlier
    time, the token is accepted. *)
Theorem expiry_check_is_strict jwt_verify token now (used : UsedTokens) p e :
  truthy token = true → used !! token = None →
  jwt_verify token now = Decoded p →
  truthy (cameraId p) = true → expiresAt p = ExpDate (ValidDate e) →
  let r := (validateStreamToken jwt_verify token now used).1 in
  (e < now → valid r = false ∧ error r = Some "Token expired") ∧
  (now ≤ e → valid r = true ∧ error r = None).
Proof.
  intros Ht Hu Hj Hc He. unfold validateStreamToken.
  rewrite Ht, Hu, Hj, Hc, He. simpl.
  destruct (e <? now) eqn:Hlt; simpl.
  - apply Z.ltb_lt in Hlt. split; [done|lia].
  - apply Z.ltb_ge in Hlt. split; [lia|done].
Qed.

Lemma expiry_check_is_strict_witness :
  let r := (validateStreamToken sample_verify "T2" 100000 ∅).1 in
  (100000 < 100000 → valid r = false ∧ error r = Some "Token expired") ∧
  (100000 ≤ 100000 → valid r = true ∧ error r = None).
Proof.
  apply (expiry_check_is_strict sample_verify "T2" 100000 ∅
           (mkPayload "CCTV_01" (ExpDate (ValidDate 100000)) (Some ["VIEW"])) 100000);
    vm_compute; reflexivity.
Defined.

(** A token minted with the standard [exp] claim (T1: exp = 100 s) is turned
    away at the boundary by [jwt.verify] itself. *)
Example minted_token_at_expiry :
  error (validateStreamToken sample_verify "T1" 100000 ∅).1 = Some "Token expired".
Proof. vm_compute. reflexivity. Qed.

(** C10, as the claim words it, fails: T1 is reported valid by POST
    /validate-token at 50000 ms, the sweep that runs at 400000 ms removes its
    entry (its expiry 100000 is in the past), and the /webrtc handshake that
    presents it afterwards is refused with 'Token expired', not with 'Token
    already used'. *)
Lemma validated_token_after_sweep_reports_expired :
  let first := postValidateToken sample_verify (Some "T1") 50000 ∅ in
  let later := verifyClient sample_verify (Some "T1") 400001
                 (serve_all sample_verify first.2 [SweepTick 400000]) in
  r_valid first.1 = true ∧
  later.1 = Reject 401 "Token expired" ∧
  later.1 ≠ Reject 401 "Token already used".
Proof. vm_compute. repeat split; congruence. Qed.

(** C10 (amended): a token that POST /validate-token reported valid is
    consumed.  With a clock that does not run backwards, whatever requests
    the gateway serves and whatever sweeps run in between, a /webrtc
    handshake that presents the same token is refused with a 401; the reason
    is 'Token already used' exactly as long as no sweep has run after the
    token's expiry. *)
Theorem validate_token_endpoint_consumes jwt_verify token now (used : UsedTokens)
    acts now' :
  payload_stable jwt_verify →
  r_valid (postValidateToken jwt_verify (Some token) now used).1 = true →
  clock_from now ((as_event <$> acts) ++ [EvValidate token now']) = true →
  let first := postValidateToken jwt_verify (Some token) now used in
  let later := verifyClient jwt_verify (Some token) now'
                 (serve_all jwt_verify first.2 acts) in
  (∃ reason, later.1 = Reject 401 reason) ∧
  ∃ e, r_expiresAt first.1 = Some (ValidDate e) ∧
       (later.1 = Reject 401 "Token already used" ↔
        swept_after e (as_event <$> acts) = false).
Proof.
  intros Hst Hv Hclk first later. subst first later.
  rewrite serve_all_run. simpl in *.
  destruct (truthy token) eqn:Ht; simpl in *; [|done].
  destruct (validateStreamToken jwt_verify token now used) as [r u] eqn:Hr.
  simpl in *.
  assert (Hacc : valid (validateStreamToken jwt_verify token now used).1 = true)
    by (by rewrite Hr).
  destruct (validate_accept_inv _ _ _ _ Hacc)
    as (p & e & _ & Hu & Hj & Hc & He & Hle & Hexp & Hs).
  rewrite Hr in Hs, Hexp. simpl in Hs, Hexp. subst u.
  assert (Hin : (<[token := Some e]> used : UsedTokens) !! token = Some (Some e))
    by apply lookup_insert_eq.
  destruct (swept_after e (as_event <$> acts)) eqn:Hsw.
  - assert (Hdec : ∀ n p', jwt_verify token n = Decoded p' → p' = p).
    { intros n p' Hn. symmetry. eapply Hst; eauto. }
    destruct (purged_stays_out jwt_verify token p e Hdec Hc He _ _ now now' Ht Hin Hsw Hclk)
      as [Hout Hlt].
    destruct (expired_not_inserted jwt_verify token p e Hdec Hc He now' _ Hlt Hout)
      as (_ & Hinv & Herr).
    destruct (validateStreamToken jwt_verify token now'
                (run jwt_verify (<[token := Some e]> used) (as_event <$> acts)))
      as [v u']. simpl in *. rewrite Hinv. simpl.
    split; [by eexists|]. exists e. split; [done|]. rewrite Hsw.
    split; [|discriminate]. intros [= Hreason]. exfalso.
    destruct (error v) as [x|]; [|discriminate].
    destruct (truthy x); [|discriminate]. by subst x.
  - pose proof (replay_entry_persists jwt_verify token e _ _ Ht Hin Hsw) as Hp.
    erewrite validate_replayed; [|done|exact Hp]. simpl.
    split; [by eexists|]. exists e. by rewrite Hsw.
Qed.

Lemma validate_token_endpoint_consumes_witness :
  let acts := [Serve (WebrtcHandshake (Some "T2") 50001); SweepTick 60000] in
  let first := postValidateToken sample_verify (Some "T1") 50000 ∅ in
  let later := verifyClient sample_verify (Some "T1") 70000
                 (serve_all sample_verify first.2 acts) in
  (∃ reason, later.1 = Reject 401 reason) ∧
  ∃ e, r_expiresAt first.1 = Some (ValidDate e) ∧
       (later.1 = Reject 401 "Token already used" ↔
        swept_after e (as_event <$> acts) = false).
Proof.
  apply (validate_token_endpoint_consumes sample_verify "T1" 50000 ∅
           [Serve (WebrtcHandshake (Some "T2") 50001); SweepTick 60000] 70000).
  - apply table_verify_stable.
  - vm_compute. reflexivity.
  - vm_compute. reflexivity.
Defined.

(** With the sweep before the token's expiry, as in the trace above, the
    handshake is answered 'Token already used'. *)
Example validated_token_before_expiry :
  (verifyClient sample_verify (Some "T1") 70000
     (serve_all sample_verify (postValidateToken sample_verify (Some "T1") 50000 ∅).2
        [Serve (WebrtcHandshake (Some "T2") 50001); SweepTick 60000])).1
  = Reject 401 "Token already used".
Proof. vm_compute. reflexivity. Qed.

End StreamTokenClaims.

(** ** The RTSP stream supervisor *)

Section RtspFacts.
Import Rtsp.

Variables (MAX_VIEWERS_PER_CAMERA STREAM_TIMEOUT_NO_VIEWERS : Z).

Lemma stopStream_bounded cameraId now st :
  Forall (bounded MAX_VIEWERS_PER_CAMERA) (heap st) → Forall (bounded MAX_VIEWERS_PER_CAMERA) (heap (stopStream cameraId now st)).
Proof.
  intros H. unfold stopStream.
  destruct (activeStreams st !! cameraId) as [r|]; [|done].
  destruct (heap st !! r) as [si|] eqn:Hr; [|done].
  pose proof (Forall_lookup_1 _ _ _ _ H Hr) as Hsi.
  destruct (status si); simpl; try done; by apply Forall_insert.
Qed.

Lemma startStream_bounded cameraId now st :
  0 ≤ MAX_VIEWERS_PER_CAMERA →
  Forall (bounded MAX_VIEWERS_PER_CAMERA) (heap st) → Forall (bounded MAX_VIEWERS_PER_CAMERA) (heap (startStream cameraId now st).2).
Proof.
  intros Hmax H. unfold startStream.
  destruct (cameraRegistry st !! cameraId) as [camera|]; [|done].
  destruct (enabled camera); simpl; [|done].
  assert (Hnew : ∀ st1 t, Forall (bounded MAX_VIEWERS_PER_CAMERA) (heap st1) →
            Forall (bounded MAX_VIEWERS_PER_CAMERA) (heap st1 ++ [mkStreamInfo cameraId (Some (length (heap st1))) t 0 t
                                           RUNNING "webrtc" 0 None])).
  { intros st1 t H1. apply Forall_app. split; [done|].
    apply Forall_singleton. unfold bounded. simpl. lia. }
  destruct (activeStreams st !! cameraId) as [r|]; [|by apply Hnew].
  destruct (heap st !! r) as [si|]; [|by apply Hnew].
  destruct (status si); simpl; try done; try by apply Hnew.
  by apply Hnew, stopStream_bounded.
Qed.

Lemma addViewer_bounded cameraId now st :
  Forall (bounded MAX_VIEWERS_PER_CAMERA) (heap st) →
  Forall (bounded MAX_VIEWERS_PER_CAMERA) (heap (addViewer MAX_VIEWERS_PER_CAMERA cameraId now st).2).
Proof.
  intros H. unfold addViewer.
  destruct (activeStreams st !! cameraId) as [r|]; [|done].
  destruct (heap st !! r) as [si|] eqn:Hr; [|done].
  pose proof (Forall_lookup_1 _ _ _ _ H Hr) as Hsi.
  destruct (MAX_VIEWERS_PER_CAMERA <=? viewerCount si) eqn:Hle; simpl; [done|].
  apply Z.leb_gt in Hle. apply Forall_insert; [done|].
  unfold bounded in *. simpl. lia.
Qed.

Lemma removeViewer_bounded cameraId now st :
  0 ≤ MAX_VIEWERS_PER_CAMERA →
  Forall (bounded MAX_VIEWERS_PER_CAMERA) (heap st) →
  Forall (bounded MAX_VIEWERS_PER_CAMERA) (heap (removeViewer STREAM_TIMEOUT_NO_VIEWERS cameraId now st)).
Proof.
  intros Hmax H. unfold removeViewer.
  destruct (activeStreams st !! cameraId) as [r|]; [|done].
  destruct (heap st !! r) as [si|] eqn:Hr; [|done].
  pose proof (Forall_lookup_1 _ _ _ _ H Hr) as Hsi.
  assert (Forall (bounded MAX_VIEWERS_PER_CAMERA) (<[r := set_viewerCount (Z.max 0 (viewerCount si - 1)) si]> (heap st))).
  { apply Forall_insert; [done|]. unfold bounded in *. simpl. lia. }
  case_match; [by apply stopStream_bounded|done].
Qed.

Lemma onExit_bounded r code signal now st :
  Forall (bounded MAX_VIEWERS_PER_CAMERA) (heap st) → Forall (bounded MAX_VIEWERS_PER_CAMERA) (heap (onExit r code signal now st)).
Proof.
  intros H. unfold onExit.
  destruct (heap st !! r) as [si|] eqn:Hr; [|done].
  pose proof (Forall_lookup_1 _ _ _ _ H Hr) as Hsi.
  destruct (status si); simpl; try (by apply Forall_insert);
    case_match; simpl; repeat apply Forall_insert; done.
Qed.

Lemma reaper_bounded now st :
  Forall (bounded MAX_VIEWERS_PER_CAMERA) (heap st) →
  Forall (bounded MAX_VIEWERS_PER_CAMERA) (heap (reaper STREAM_TIMEOUT_NO_VIEWERS now st)).
Proof.
  unfold reaper. generalize (map_to_list (activeStreams st)) as l.
  intros l. revert st. induction l as [|entry l IH]; intros st H; [done|].
  simpl. apply IH. unfold reap_one.
  destruct (heap st !! entry.2); [|done].
  case_match; [by apply stopStream_bounded|done].
Qed.

Lemma step_bounded st ev :
  0 ≤ MAX_VIEWERS_PER_CAMERA →
  Forall (bounded MAX_VIEWERS_PER_CAMERA) (heap st) →
  Forall (bounded MAX_VIEWERS_PER_CAMERA) (heap (step MAX_VIEWERS_PER_CAMERA STREAM_TIMEOUT_NO_VIEWERS st ev)).
Proof.
  intros Hmax H. destruct ev; simpl.
  - unfold registerCamera. by repeat case_match.
  - by apply startStream_bounded.
  - by apply stopStream_bounded.
  - by apply addViewer_bounded.
  - by apply removeViewer_bounded.
  - unfold onStdoutData. destruct (heap st !! r) as [si|] eqn:Hr; [|done].
    pose proof (Forall_lookup_1 _ _ _ _ H Hr). by apply Forall_insert.
  - by apply onExit_bounded.
  - unfold onError. destruct (heap st !! r) as [si|] eqn:Hr; [|done].
    pose proof (Forall_lookup_1 _ _ _ _ H Hr). by apply Forall_insert.
  - unfold onRestartTimer. destruct (restartTimers st) as [|[c r] rest]; [done|].
    simpl. destruct (activeStreams st !! c); [|done].
    destruct (heap st !! r) as [si|]; [|done].
    destruct (status si); try done.
    by apply startStream_bounded.
  - by apply reaper_bounded.
Qed.

Lemma run_bounded evs : ∀ st,
  0 ≤ MAX_VIEWERS_PER_CAMERA →
  Forall (bounded MAX_VIEWERS_PER_CAMERA) (heap st) →
  Forall (bounded MAX_VIEWERS_PER_CAMERA) (heap (run MAX_VIEWERS_PER_CAMERA STREAM_TIMEOUT_NO_VIEWERS st evs)).
Proof.
  induction evs as [|ev evs IH]; intros st Hmax H; [done|].
  unfold run. simpl. apply IH; [done|]. by apply step_bounded.
Qed.

End RtspFacts.

Section RtspViewerClaims.
Import Rtsp.

Lemma stopStream_active cameraId now st :
  activeStreams (stopStream cameraId now st) = activeStreams st.
Proof.
  unfold stopStream. by repeat case_match.
Qed.

Lemma stopStream_viewerCount cameraId now st r :
  viewerCount <$> heap (stopStream cameraId now st) !! r = viewerCount <$> heap st !! r.
Proof.
  unfold stopStream.
  destruct (activeStreams st !! cameraId) as [r'|]; [|done].
  destruct (heap st !! r') as [si|] eqn:Hr; [|done].
  assert (viewerCount <$> <[r' := set_status STOPPING si]> (heap st) !! r
          = viewerCount <$> heap st !! r) as Hins.
  { destruct (decide (r' = r)) as [->|Hne].
    - rewrite list_lookup_insert_eq by (by eapply lookup_lt_Some). by rewrite Hr.
    - by rewrite list_lookup_insert_ne. }
  destruct (status si); simpl; done.
Qed.

(** What the two viewer operations do to the count of the stream they name. *)
Lemma viewer_ops MAX TIMEOUT cameraId now st si :
  getStream cameraId st = Some si →
  (addViewer MAX cameraId now st).1
    = (if MAX <=? viewerCount si then Some (MaxViewersReached MAX cameraId) else None) ∧
  (if MAX <=? viewerCount si
   then (addViewer MAX cameraId now st).2 = st
   else viewerCount <$> getStream cameraId (addViewer MAX cameraId now st).2
        = Some (viewerCount si + 1)) ∧
  viewerCount <$> getStream cameraId (removeViewer TIMEOUT cameraId now st)
    = Some (Z.max 0 (viewerCount si - 1)).
Proof.
  unfold getStream, addViewer, removeViewer.
  destruct (activeStreams st !! cameraId) as [r|] eqn:Ha; [|done].
  intros Hr. rewrite Hr.
  pose proof (lookup_lt_Some _ _ _ Hr) as Hlt.
  split; [by case_match|]. split.
  - case_match; [done|]. simpl. rewrite Ha.
    by rewrite list_lookup_insert_eq.
  - match goal with
    | |- context [if ?b then _ else _] => destruct b
    end.
    + rewrite stopStream_active. simpl. rewrite Ha.
      rewrite stopStream_viewerCount. simpl.
      by rewrite list_lookup_insert_eq.
    + simpl. rewrite Ha. by rewrite list_lookup_insert_eq.
Qed.

(** C7: in every state that the supervisor reaches, the viewer count of
    every stream lies between 0 and MAX_VIEWERS_PER_CAMERA; [addViewer] on a
    stream whose count has reached the maximum throws and changes nothing
    (below the maximum it adds one), and [removeViewer] takes one off but
    never goes below 0. *)
Theorem viewer_count_bounded MAX TIMEOUT evs cameraId now :
  0 ≤ MAX →
  let st := run MAX TIMEOUT initial evs in
  Forall (λ si, 0 ≤ viewerCount si ≤ MAX) (heap st) ∧
  match getStream cameraId st with
  | None => True
  | Some si =>
    0 ≤ viewerCount si ≤ MAX ∧
    (addViewer MAX cameraId now st).1
      = (if MAX <=? viewerCount si then Some (MaxViewersReached MAX cameraId) else None) ∧
    (if MAX <=? viewerCount si
     then (addViewer MAX cameraId now st).2 = st
     else viewerCount <$> getStream cameraId (addViewer MAX cameraId now st).2
          = Some (viewerCount si + 1)) ∧
    viewerCount <$> getStream cameraId (removeViewer TIMEOUT cameraId now st)
      = Some (Z.max 0 (viewerCount si - 1))
  end.
Proof.
  intros Hmax st.
  assert (Hall : Forall (λ si, 0 ≤ viewerCount si ≤ MAX) (heap st)).
  { subst st. apply run_bounded; [done|]. simpl. constructor. }
  split; [done|].
  destruct (getStream cameraId st) as [si|] eqn:Hg; [|done].
  split; [|by apply viewer_ops].
  unfold getStream in Hg. destruct (activeStreams st !! cameraId); [|done].
  by apply (Forall_lookup_1 _ _ _ _ Hall Hg).
Qed.

(** Ten viewers are admitted, the eleventh is turned away; then twelve
    viewers leave. *)
Lemma viewer_count_bounded_witness :
  let evs := EvRegisterCamera (mkCameraInput "CCTV_01" "rtsp://10.0.0.1/stream" None None)
             :: EvStartStream "CCTV_01" 0
             :: repeat (EvAddViewer "CCTV_01" 1000) 11 in
  let st := run 10 60000 initial evs in
  Forall (λ si, 0 ≤ viewerCount si ≤ 10) (heap st) ∧
  match getStream "CCTV_01" st with
  | None => True
  | Some si =>
    0 ≤ viewerCount si ≤ 10 ∧
    (addViewer 10 "CCTV_01" 2000 st).1
      = (if 10 <=? viewerCount si then Some (MaxViewersReached 10 "CCTV_01") else None) ∧
    (if 10 <=? viewerCount si
     then (addViewer 10 "CCTV_01" 2000 st).2 = st
     else viewerCount <$> getStream "CCTV_01" (addViewer 10 "CCTV_01" 2000 st).2
          = Some (viewerCount si + 1)) ∧
    viewerCount <$> getStream "CCTV_01" (removeViewer 60000 "CCTV_01" 2000 st)
      = Some (Z.max 0 (viewerCount si - 1))
  end.
Proof.
  apply (viewer_count_bounded 10 60000
           (EvRegisterCamera (mkCameraInput "CCTV_01" "rtsp://10.0.0.1/stream" None None)
              :: EvStartStream "CCTV_01" 0
              :: repeat (EvAddViewer "CCTV_01" 1000) 11)
           "CCTV_01" 2000).
  lia.
Defined.

(** The eleventh viewer of the trace above is rejected: the count stays 10. *)
Example eleventh_viewer_rejected :
  let st := run 10 60000 (one_camera "CCTV_01") (repeat (EvAddViewer "CCTV_01" 1000) 10) in
  viewerCount <$> getStream "CCTV_01" st = Some 10 ∧
  addViewer 10 "CCTV_01" 2000 st = (Some (MaxViewersReached 10 "CCTV_01"), st).
Proof. vm_compute. split; reflexivity. Qed.

(** [removeViewer] called more often than [addViewer] leaves the count at 0. *)
Example remove_clamps_at_zero :
  let st := run 10 60000 (one_camera "CCTV_01")
              [EvAddViewer "CCTV_01" 1000; EvRemoveViewer "CCTV_01" 2000;
               EvRemoveViewer "CCTV_01" 3000; EvRemoveViewer "CCTV_01" 4000] in
  viewerCount <$> getStream "CCTV_01" st = Some 0.
Proof. vm_compute. reflexivity. Qed.

End RtspViewerClaims.

Section RtspRestartClaims.
Import Rtsp.

Variables (MAX_VIEWERS_PER_CAMERA STREAM_TIMEOUT_NO_VIEWERS : Z).

Lemma run_app st evs1 evs2 :
  run MAX_VIEWERS_PER_CAMERA STREAM_TIMEOUT_NO_VIEWERS st (evs1 ++ evs2)%list
  = run MAX_VIEWERS_PER_CAMERA STREAM_TIMEOUT_NO_VIEWERS
      (run MAX_VIEWERS_PER_CAMERA STREAM_TIMEOUT_NO_VIEWERS st evs1) evs2.
Proof. apply fold_left_app. Qed.

(** One unexpected exit followed by the restart callback replaces the object
    by a fresh one whose restart count is 0 again. *)
Lemma crash_round_serving cam k st :
  serving cam k st →
  serving cam (S k)
    (run MAX_VIEWERS_PER_CAMERA STREAM_TIMEOUT_NO_VIEWERS st (crash_round k)).
Proof.
  intros ([camera [Hreg Hen]] & Hlen & Hact & [t Hobj] & Htm & Hsp).
  destruct st as [reg h act hl tm sp]. simpl in *. subst tm sp.
  assert (Hk : (k < length h)%nat) by lia.
  unfold run, crash_round. simpl.
  unfold onExit. simpl. rewrite Hobj. simpl.
  unfold onRestartTimer. simpl. rewrite Hact.
  rewrite list_lookup_insert_eq by (by rewrite length_insert). simpl.
  unfold startStream. simpl. rewrite Hreg, Hen, Hact. simpl.
  rewrite list_lookup_insert_eq by (by rewrite length_insert). simpl.
  unfold stopStream. simpl. rewrite Hact.
  rewrite list_lookup_insert_eq by (by rewrite length_insert). simpl.
  rewrite !length_insert, Hlen.
  repeat split; simpl.
  - eauto.
  - by rewrite length_app, !length_insert, Hlen, Nat.add_1_r.
  - apply lookup_insert_eq.
  - eexists. rewrite lookup_app_r by (rewrite !length_insert; lia).
    rewrite !length_insert, Hlen, Nat.sub_diag. done.
Qed.

Lemma crash_loop_serving cam n st :
  serving cam 0 st →
  serving cam n
    (run MAX_VIEWERS_PER_CAMERA STREAM_TIMEOUT_NO_VIEWERS st (crash_loop n)).
Proof.
  intros H0. induction n as [|n IH]; [done|].
  unfold crash_loop. rewrite seq_S, flat_map_app, run_app.
  change (flat_map crash_round (seq 0 n)) with (crash_loop n).
  cbn [flat_map Nat.add]. rewrite app_nil_r. by apply crash_round_serving.
Qed.

End RtspRestartClaims.

Section RtspSupervisorClaims.
Import Rtsp.

Lemma one_camera_serving : serving "CCTV_01" 0 (one_camera "CCTV_01").
Proof.
  repeat split; try (vm_compute; reflexivity).
  - eexists. split; vm_compute; reflexivity.
  - eexists. vm_compute. reflexivity.
Qed.

(** C3 (the code at the failing input): a camera whose child exits
    unexpectedly every time is restarted after each exit, without end.  After
    [n] exits the supervisor has spawned [n + 1] children, the current object
    is RUNNING and its restart count is back at 0, so the limit of 5 is never
    reached. *)
Theorem crash_loop_restarts_forever n :
  let st := run 10 60000 (one_camera "CCTV_01") (crash_loop n) in
  spawned st = S n ∧
  status <$> getStream "CCTV_01" st = Some RUNNING ∧
  restartCount <$> getStream "CCTV_01" st = Some 0.
Proof.
  intros st.
  destruct (crash_loop_serving 10 60000 "CCTV_01" n _ one_camera_serving)
    as (_ & _ & Hact & [t Hobj] & _ & Hsp).
  fold st in Hact, Hobj, Hsp.
  unfold getStream. rewrite Hact, Hobj. done.
Qed.

(** Six unexpected exits: the sixth restart callback starts a seventh child. *)
Example seventh_child_is_spawned :
  spawned (run 10 60000 (one_camera "CCTV_01") (crash_loop 5)) = 6%nat ∧
  spawned (run 10 60000 (one_camera "CCTV_01") (crash_loop 6)) = 7%nat ∧
  restartTimers (run 10 60000 (one_camera "CCTV_01")
                   (crash_loop 5 ++ [EvExit 5 "1" "null" 51000])%list)
    = [("CCTV_01", 5%nat)].
Proof. vm_compute. repeat split; reflexivity. Qed.

(** The cause: a chunk on stdout makes the object of that child look freshly
    watched, so a cleanup that visits it within the timeout passes it by,
    whatever its viewer count is and has been. *)
Lemma stdout_data_blocks_cleanup TIMEOUT r cam now now' st :
  now' - now ≤ TIMEOUT → is_Some (heap st !! r) →
  reap_one TIMEOUT now' (onStdoutData r now st) (cam, r) = onStdoutData r now st.
Proof.
  intros Hle [si Hsi]. unfold reap_one, onStdoutData. rewrite Hsi. simpl.
  rewrite list_lookup_insert_eq by (by eapply lookup_lt_Some). simpl.
  replace (TIMEOUT <? now' - now) with false by (symmetry; apply Z.ltb_ge; lia).
  by rewrite andb_false_r.
Qed.

Lemma idle_round_idling cam k st :
  idling cam st → idling cam (run 10 60000 st (idle_round 0 k)).
Proof.
  intros [Hact [t Hheap]].
  destruct st as [reg h act hl tm sp]. simpl in *. subst h act.
  unfold run, idle_round. simpl.
  unfold reaper. simpl. rewrite map_to_list_singleton. simpl.
  unfold reap_one, onStdoutData. simpl.
  replace (30000 * Z.of_nat k + 30000 - (30000 * Z.of_nat k + 29000)) with 1000 by lia.
  simpl. split; [done|]. by eexists.
Qed.

Lemma idle_rounds_idling cam n st :
  idling cam st → idling cam (run 10 60000 st (idle_rounds 0 n)).
Proof.
  intros H0. induction n as [|n IH]; [done|].
  unfold idle_rounds. rewrite seq_S, flat_map_app, run_app.
  change (flat_map (idle_round 0) (seq 0 n)) with (idle_rounds 0 n).
  cbn [flat_map Nat.add]. rewrite app_nil_r. by apply idle_round_idling.
Qed.

Lemma one_camera_idling : idling "CCTV_01" (one_camera "CCTV_01").
Proof.
  split; [vm_compute; reflexivity|]. eexists. vm_compute. reflexivity.
Qed.

(** C5 (the code at the failing input): a stream that has had no viewer
    since time 0 and whose child keeps writing frames survives every run of
    the periodic cleanup: after [n] periods of 30 s it is still RUNNING with
    a viewer count of 0, however far [n] is beyond the 60 s limit. *)
Theorem idle_stream_never_reaped n :
  let st := run 10 60000 (one_camera "CCTV_01") (idle_rounds 0 n) in
  status <$> getStream "CCTV_01" st = Some RUNNING ∧
  viewerCount <$> getStream "CCTV_01" st = Some 0.
Proof.
  intros st.
  destruct (idle_rounds_idling "CCTV_01" n _ one_camera_idling) as [Hact [t Hheap]].
  fold st in Hact, Hheap.
  unfold getStream. rewrite Hact, Hheap, lookup_singleton_eq. done.
Qed.

(** The same stream with a silent child is stopped by the first cleanup that
    runs more than 60 s after the start. *)
Example silent_stream_is_reaped :
  status <$> getStream "CCTV_01"
               (run 10 60000 (one_camera "CCTV_01") [EvReaper 30000; EvReaper 60000])
    = Some RUNNING ∧
  status <$> getStream "CCTV_01"
               (run 10 60000 (one_camera "CCTV_01")
                  [EvReaper 30000; EvReaper 60000; EvReaper 90000])
    = Some STOPPING.
Proof. vm_compute. split; reflexivity. Qed.

End RtspSupervisorClaims.

(** ** The session store *)

Section SessionFacts.
Import Sessions.

Lemma call_invariant_created k m sock now :
  call_invariant
    (mkSession k m sock now now "active" "idle" None None
       (mkMediaState (mkMedia false false) (mkMedia false false))).
Proof. split; simpl; [discriminate|done]. Qed.

(** A call-state update establishes I5 and I6 whatever the session was. *)
Lemma call_invariant_updated cs who now s :
  let by1 := match who with
             | Some w => if truthy w then Some w else callInitiatedBy s
             | None => callInitiatedBy s
             end in
  let at1 := if String.eqb cs "connected"
             then match callStartedAt s with None => Some now | Some t => Some t end
             else callStartedAt s in
  call_invariant s →
  call_invariant
    (let '(by2, at2) :=
       if String.eqb cs "ended" || String.eqb cs "idle"
       then (None, None) else (by1, at1) in
     set_call cs by2 at2 s).
Proof.
  intros by1 at1 [H5 H6]. subst by1 at1.
  destruct (String.eqb cs "ended") eqn:He; simpl.
  { apply String.eqb_eq in He as ->. split; simpl; [discriminate|done]. }
  destruct (String.eqb cs "idle") eqn:Hi; simpl.
  { apply String.eqb_eq in Hi as ->. split; simpl; [discriminate|done]. }
  apply String.eqb_neq in He, Hi.
  split; simpl.
  - intros ->. simpl. by destruct (callStartedAt s).
  - intros [?|?]; congruence.
Qed.

Lemma step_call_invariant (st : Store) ev :
  map_Forall (λ _ s, call_invariant s) st →
  map_Forall (λ _ s, call_invariant s) (step st ev).
Proof.
  intros H. destruct ev as [k m sock now|k|sock|k|k now|k cs who now|k role mu]; simpl.
  - unfold createSession. repeat case_match; simpl; try done.
    apply map_Forall_insert_2; [apply call_invariant_created|done].
  - unfold endSession. repeat case_match; simpl; try done.
    by apply map_Forall_delete.
  - unfold endSessionByMonitorSocket. case_match; [done|].
    intros k s [Hs _]%map_lookup_filter_Some. by apply (H k).
  - unfold endSessionByKiosk, endSession. repeat case_match; simpl; try done.
    by apply map_Forall_delete.
  - unfold updateSessionActivity. case_match; [done|].
    destruct (st !! k) as [s|] eqn:Hs; simpl; [|done].
    apply map_Forall_insert_2; [|done]. exact (H k s Hs).
  - unfold updateCallState. case_match; [done|].
    destruct (st !! k) as [s|] eqn:Hs; simpl; [|done].
    pose proof (call_invariant_updated cs who now s (H k s Hs)) as Hc.
    simpl in Hc.
    destruct (String.eqb cs "ended" || String.eqb cs "idle"); simpl;
      by apply map_Forall_insert_2.
  - unfold updateMediaState. destruct mu as [u|]; [|done].
    case_match; [done|].
    destruct (st !! k) as [s|] eqn:Hs; simpl; [|done].
    apply map_Forall_insert_2; [|done]. exact (H k s Hs).
Qed.

End SessionFacts.

Section SessionClaims.
Import Sessions.

(** C6: I5 and I6 hold for every session in every state of the store that
    is reached from the empty store by calls of its functions: a CONNECTED
    call has a start time, and an IDLE or ENDED call has neither an initiator
    nor a start time. *)
Theorem call_invariants_hold evs :
  map_Forall (λ _ s, call_invariant s) (run ∅ evs).
Proof.
  unfold run. generalize (∅ : Store) (map_Forall_empty (M := gmap string)
    (λ (_ : string) s, call_invariant s)).
  induction evs as [|ev evs IH]; intros st H; [done|].
  simpl. apply IH. by apply step_call_invariant.
Qed.

(** A whole call: request, accept, end. *)
Example call_cycle :
  (λ s, (callState s, callInitiatedBy s, callStartedAt s)) <$> in_call !! "KIOSK_01"
    = Some ("connected", Some "monitor", Some 2000) ∧
  (λ s, (callState s, callInitiatedBy s, callStartedAt s)) <$>
    run in_call [EvUpdateCallState "KIOSK_01" "ended" None 3000] !! "KIOSK_01"
    = Some ("ended", None, None).
Proof. vm_compute. split; reflexivity. Qed.

Lemma apply_update_idempotent u m : apply_update u (apply_update u m) = apply_update u m.
Proof.
  unfold apply_update. destruct u as [[v|] [a|]]; reflexivity.
Qed.

(** C9: [updateMediaState] is idempotent: a second call with the same
    arguments returns the same value and leaves the store as the first call
    left it.  In particular, after two calls for role monitor with
    videoEnabled = true the session (if there is one) has
    mediaState.monitor.videoEnabled = true. *)
Theorem updateMediaState_idempotent kioskId role mediaState (sessions : Store) :
  let once := updateMediaState kioskId role mediaState sessions in
  let twice := updateMediaState kioskId role mediaState once.2 in
  twice = once ∧
  match getSession kioskId sessions with
  | None => True
  | Some _ =>
    (λ s, videoEnabled (monitor (Sessions.mediaState s))) <$>
      getSession kioskId
        (updateMediaState kioskId "monitor" (Some (mkMediaUpdate (Some true) None))
           (updateMediaState kioskId "monitor" (Some (mkMediaUpdate (Some true) None))
              sessions).2).2
    = Some true
  end.
Proof.
  split.
  - unfold updateMediaState. destruct mediaState as [u|]; [|done].
    destruct (negb (truthy kioskId) || negb (truthy role)) eqn:Hg; simpl; [done|].
    destruct (sessions !! kioskId) as [s|] eqn:Hs; simpl.
    + rewrite lookup_insert_eq. simpl. rewrite insert_insert_eq.
      unfold set_mediaState.
      destruct (String.eqb role "kiosk"), (String.eqb role "monitor"); simpl;
        by rewrite ?apply_update_idempotent.
    + by rewrite Hs.
  - unfold getSession, updateMediaState. destruct (truthy kioskId); simpl; [|done].
    destruct (sessions !! kioskId) as [s|] eqn:Hs; simpl; [|done].
    rewrite lookup_insert_eq. simpl. by rewrite lookup_insert_eq.
Qed.

(** Two identical video toggles of the monitor during a connected call. *)
Example toggle_video_twice :
  let toggle := EvUpdateMediaState "KIOSK_01" "monitor"
                  (Some (mkMediaUpdate (Some true) None)) in
  (λ s, (callState s, Sessions.mediaState s)) <$>
    run in_call [toggle; toggle] !! "KIOSK_01"
  = Some ("connected", mkMediaState (mkMedia false false) (mkMedia true false)) ∧
  run in_call [toggle; toggle] = run in_call [toggle].
Proof. vm_compute. split; reflexivity. Qed.

End SessionClaims.

Section StartMonitoringClaims.
Import Sessions.



(** The cases of the handler on concrete stores: another monitor, the owner
    again, a free kiosk, and a kiosk that is not present. *)
Example start_monitoring_cases :
  startMonitoring {[ "KIOSK_01" := 0 ]} "KIOSK_01" "MONITOR_02" "socket-2" 3000 in_call
    = (ErrorReply "SESSION_CONFLICT", in_call) ∧
  (startMonitoring {[ "KIOSK_01" := 0 ]} "KIOSK_01" "MONITOR_01" "socket-1" 3000 in_call).1
    = MonitoringStarted "KIOSK_01" ∧
  callState <$>
    (startMonitoring {[ "KIOSK_01" := 0 ]} "KIOSK_01" "MONITOR_01" "socket-1" 3000
       in_call).2 !! "KIOSK_01" = Some "idle" ∧
  (startMonitoring {[ "KIOSK_01" := 0 ]} "KIOSK_01" "MONITOR_01" "socket-1" 3000 ∅).1
    = MonitoringStarted "KIOSK_01" ∧
  startMonitoring ∅ "KIOSK_01" "MONITOR_01" "socket-1" 3000 ∅
    = (ErrorReply "KIOSK_NOT_FOUND", ∅).
Proof. vm_compute. repeat split; reflexivity. Qed.

(** [createSession] itself refuses a kiosk that has a session, whoever owns
    it, and leaves the map as it is. *)
Example createSession_refuses_existing :
  createSession "KIOSK_01" "MONITOR_01" "socket-1" 3000 in_call
  = (Threw "Session already exists for kiosk: KIOSK_01", in_call).
Proof. vm_compute. reflexivity. Qed.

End StartMonitoringClaims.

(** ** The camera registry *)

Section RegistryClaims.
Import Registry.

Lemma project_no_rtspUrl camera : has_field "rtspUrl" (project camera) = false.
Proof. reflexivity. Qed.

Lemma projections_no_rtspUrl (cameras : Cameras) :
  forallb (λ obj, negb (has_field "rtspUrl" obj)) (map (λ kv, project kv.2) cameras) = true.
Proof.
  induction cameras as [|[k c] cameras IH]; [done|].
  simpl map. cbn [forallb]. by rewrite project_no_rtspUrl, IH.
Qed.

Lemma forallb_filter {A} (P f : A → bool) l :
  forallb P l = true → forallb P (List.filter f l) = true.
Proof.
  induction l as [|x l IH]; [done|]. simpl.
  intros [Hx Hl]%andb_true_iff. destruct (f x); simpl; [|by apply IH].
  by rewrite Hx, IH.
Qed.

(** C8: no object that the registry hands out has an [rtspUrl] field: not
    the result of [getCamera], no element of [getAllCameras] or
    [getEnabledCameras], and not the object that [registerCamera] returns. *)
Theorem projections_strip_rtspUrl (cameras : Cameras) cameraId enabledOnly config now :
  match getCamera cameraId cameras with
  | Some obj => has_field "rtspUrl" obj = false
  | None => True
  end ∧
  forallb (λ obj, negb (has_field "rtspUrl" obj)) (getAllCameras enabledOnly cameras) = true ∧
  forallb (λ obj, negb (has_field "rtspUrl" obj)) (getEnabledCameras cameras) = true ∧
  match (registerCamera config now cameras).1 with
  | Returned obj => has_field "rtspUrl" obj = false
  | Threw _ => True
  end.
Proof.
  repeat split.
  - unfold getCamera. destruct (truthy cameraId); simpl; [|done].
    destruct (lookup_camera cameraId cameras); [reflexivity|done].
  - unfold getAllCameras. destruct enabledOnly;
      [apply forallb_filter|]; apply projections_no_rtspUrl.
  - unfold getEnabledCameras, getAllCameras.
    apply forallb_filter, projections_no_rtspUrl.
  - unfold registerCamera.
    destruct (negb (truthy (i_cameraId config)) || negb (truthy (i_rtspUrl config)));
      [done|].
    destruct (negb (String.prefix "rtsp://" (i_rtspUrl config))); [done|].
    destruct (lookup_camera (i_cameraId config) cameras); [done|reflexivity].
Qed.

(** The registry keeps the URL of CCTV_01, and none of its answers shows it. *)
Example registry_answers :
  getRTSPUrl "CCTV_01" two_cameras = Some "rtsp://admin:pw@10.0.0.1/stream" ∧
  getCamera "CCTV_01" two_cameras
    = Some [ ("cameraId", VStr "CCTV_01"); ("location", VStr "Platform 1");
             ("enabled", VBool true); ("registeredAt", VDate 10);
             ("status", VStr "OFFLINE"); ("lastStatusUpdate", VDate 10) ] ∧
  length (getAllCameras false two_cameras) = 2%nat ∧
  map (get_field "cameraId") (getEnabledCameras two_cameras) = [Some (VStr "CCTV_01")].
Proof. vm_compute. repeat split; reflexivity. Qed.

End RegistryClaims.

(** ** More of the camera registry *)

Section RegistryFacts.
Import Registry.

Lemma lookup_camera_None id (cameras : Cameras) :
  lookup_camera id cameras = None ↔ id ∉ cameras.*1.
Proof.
  induction cameras as [|[k c] cameras IH]; simpl.
  - split; [intros _; apply not_elem_of_nil|done].
  - rewrite not_elem_of_cons. destruct (String.eqb k id) eqn:Hk.
    + apply String.eqb_eq in Hk. split; [done|]. intros [Hne _]. congruence.
    + apply String.eqb_neq in Hk. rewrite IH.
      split; [intros H; split; [congruence|done]|by intros [_ H]].
Qed.

Lemma lookup_camera_app id (cameras : Cameras) k c :
  lookup_camera id (cameras ++ [(k, c)])%list
  = match lookup_camera id cameras with
    | Some x => Some x
    | None => if String.eqb k id then Some c else None
    end.
Proof.
  induction cameras as [|[k' c'] cameras IH]; simpl; [done|].
  by destruct (String.eqb k' id).
Qed.

Lemma delete_camera_fresh id (cameras : Cameras) c :
  lookup_camera id cameras = None →
  delete_camera id (cameras ++ [(id, c)])%list = cameras.
Proof.
  induction cameras as [|[k' c'] cameras IH]; simpl.
  - by rewrite String.eqb_refl.
  - destruct (String.eqb k' id); [done|]. intros H. by rewrite IH.
Qed.

Lemma update_camera_keys id f (cameras : Cameras) :
  (update_camera id f cameras).*1 = cameras.*1.
Proof.
  induction cameras as [|[k c] cameras IH]; simpl; [done|].
  destruct (String.eqb k id); simpl; [done|by f_equal].
Qed.

Lemma lookup_update_camera id id' f (cameras : Cameras) :
  lookup_camera id' (update_camera id f cameras)
  = if String.eqb id id' then f <$> lookup_camera id' cameras
    else lookup_camera id' cameras.
Proof.
  induction cameras as [|[k c] cameras IH]; simpl.
  - by destruct (String.eqb id id').
  - destruct (String.eqb k id) eqn:Hk; simpl.
    + apply String.eqb_eq in Hk as ->. by destruct (String.eqb id id').
    + destruct (String.eqb k id') eqn:Hk'; [|done].
      apply String.eqb_eq in Hk' as ->.
      rewrite String.eqb_sym in Hk. by rewrite Hk.
Qed.

Lemma update_camera_Forall (P : string * CameraData → Prop) id f (cameras : Cameras) :
  (∀ k c, P (k, c) → P (k, f c)) →
  Forall P cameras → Forall P (update_camera id f cameras).
Proof.
  intros Hf. induction 1 as [|[k c] cameras Hx Hl IH]; simpl; [done|].
  destruct (String.eqb k id); constructor; auto.
Qed.

Lemma delete_camera_sublist id (cameras : Cameras) :
  sublist (delete_camera id cameras) cameras.
Proof.
  induction cameras as [|[k c] cameras IH]; simpl; [done|].
  destruct (String.eqb k id); [by apply sublist_cons|by apply sublist_skip].
Qed.

Lemma step_well_formed (cameras : Cameras) ev :
  well_formed cameras → well_formed (step cameras ev).
Proof.
  intros [Hnd Hall]. destruct ev as [config now|id st now|id b|id]; simpl.
  - unfold registerCamera.
    destruct (negb (truthy (i_cameraId config)) || negb (truthy (i_rtspUrl config)))
      eqn:Hreq; [done|].
    destruct (negb (String.prefix "rtsp://" (i_rtspUrl config))) eqn:Hpre; [done|].
    destruct (lookup_camera (i_cameraId config) cameras) eqn:Hl; [done|].
    simpl. apply orb_false_iff in Hreq as [Hid _].
    apply negb_false_iff in Hid, Hpre. apply lookup_camera_None in Hl.
    split.
    + rewrite fmap_app. simpl. apply NoDup_app. repeat split; [done| |apply NoDup_singleton].
      intros x Hx [->|[]%elem_of_nil]%elem_of_cons. done.
    + apply Forall_app. split; [done|]. apply Forall_singleton.
      repeat split; simpl; try done. unfold validStatuses.
      apply elem_of_cons. right. apply elem_of_cons. by left.
  - unfold updateCameraStatus.
    destruct (negb (truthy id) || negb (truthy st)); [done|].
    destruct (existsb (String.eqb st) validStatuses) eqn:Hv; [|done].
    destruct (lookup_camera id cameras); [|done]. simpl.
    split; [by rewrite update_camera_keys|].
    apply update_camera_Forall; [|done].
    intros k' c' (Hk & Ht & Hp & _). repeat split; try done. simpl.
    apply existsb_exists in Hv as (x & Hx & ->%String.eqb_eq).
    by apply list_elem_of_In.
  - unfold setCameraEnabled. destruct (lookup_camera id cameras); [|done]. simpl.
    split; [by rewrite update_camera_keys|].
    apply update_camera_Forall; [|done]. by intros k' c' (Hk & Ht & Hp & Hs).
  - pose proof (delete_camera_sublist id cameras) as Hsub. split.
    + eapply sublist_NoDup; [exact Hnd|]. by apply fmap_sublist.
    + apply Forall_forall. intros x Hx.
      apply (proj1 (Forall_forall _ _) Hall). by eapply elem_of_sublist.
Qed.



Lemma run_well_formed evs : ∀ cameras : Cameras,
  well_formed cameras → well_formed (run cameras evs).
Proof.
  induction evs as [|ev evs IH]; intros cameras H; [done|].
  unfold run. simpl. apply IH. by apply step_well_formed.
Qed.

Lemma status_counts (cs : list CameraData) :
  Forall (λ c, status c ∈ validStatuses) cs →
  (length (List.filter (λ c, String.eqb (status c) "ONLINE") cs)
   + length (List.filter (λ c, String.eqb (status c) "OFFLINE") cs)
   + length (List.filter (λ c, String.eqb (status c) "ERROR") cs))%nat
  = length cs.
Proof.
  induction 1 as [|c cs Hc Hcs IH]; [done|]. simpl.
  unfold validStatuses in Hc. rewrite !elem_of_cons, elem_of_nil in Hc.
  destruct Hc as [Hc|[Hc|[Hc|[]]]]; rewrite Hc; simpl; lia.
Qed.

Lemma enabled_projection_count (cameras : Cameras) :
  length (getEnabledCameras cameras)
  = length (List.filter (λ c, enabled c) (map snd cameras)).
Proof.
  unfold getEnabledCameras, getAllCameras.
  induction cameras as [|[k c] cameras IH]; simpl; [done|].
  destruct (enabled c); simpl; by rewrite IH.
Qed.

End RegistryFacts.

Section RegistryProperties.
Import Registry.

(** X1: in every state that the registry reaches from the empty registry by
    [registerCamera], [updateCameraStatus], [setCameraEnabled] and
    [removeCamera], no camera id occurs twice, every camera sits under its own
    non-empty id, its stored URL starts with rtsp:// and its status is
    ONLINE, OFFLINE or ERROR. *)
Theorem registry_well_formed evs : well_formed (run [] evs).
Proof.
  apply run_well_formed. split; [apply NoDup_nil_2|constructor].
Qed.

(** X2: the counters of [getCameraStats] are consistent in every reachable
    registry: online + offline + error = total, enabled <= total, and
    [getEnabledCameras] and [getAllCameras] return exactly [enabled] and
    [total] objects. *)
Theorem camera_stats_consistent evs :
  let cameras := run [] evs in
  let stats := getCameraStats cameras in
  (online stats + offline stats + error stats)%nat = total stats ∧
  (stat_enabled stats ≤ total stats)%nat ∧
  length (getEnabledCameras cameras) = stat_enabled stats ∧
  length (getAllCameras false cameras) = total stats.
Proof.
  intros cameras stats. subst stats. unfold getCameraStats. simpl.
  assert (Hall : Forall entry_ok cameras).
  { apply run_well_formed. split; [apply NoDup_nil_2|constructor]. }
  repeat split.
  - apply status_counts. apply Forall_fmap.
    eapply Forall_impl; [exact Hall|]. by intros [k c] (_ & _ & _ & Hs).
  - apply filter_length_le.
  - apply enabled_projection_count.
  - unfold getAllCameras. by rewrite !length_map.
Qed.

(** X3: registering a camera and removing it again gives back the registry
    as it was: after a successful [registerCamera], [removeCamera] of the same
    id reports that the camera existed and restores the previous contents. *)
Theorem register_remove_roundtrip config now (cameras : Cameras) obj :
  (registerCamera config now cameras).1 = Returned obj →
  removeCamera (i_cameraId config) (registerCamera config now cameras).2 = (true, cameras).
Proof.
  unfold registerCamera.
  destruct (negb (truthy (i_cameraId config)) || negb (truthy (i_rtspUrl config)));
    [done|].
  destruct (negb (String.prefix "rtsp://" (i_rtspUrl config))); [done|].
  destruct (lookup_camera (i_cameraId config) cameras) eqn:Hl; [done|].
  intros _. simpl. unfold removeCamera, hasCamera.
  rewrite lookup_camera_app, Hl, String.eqb_refl.
  by rewrite delete_camera_fresh.
Qed.

Lemma register_remove_roundtrip_witness :
  removeCamera "CCTV_03"
    (registerCamera (mkCameraInput "CCTV_03" "rtsp://10.0.0.3/stream" "Depot" None) 30
       two_cameras).2
  = (true, two_cameras).
Proof.
  apply (register_remove_roundtrip
           (mkCameraInput "CCTV_03" "rtsp://10.0.0.3/stream" "Depot" None) 30 two_cameras
           [ ("cameraId", VStr "CCTV_03"); ("location", VStr "Depot");
             ("enabled", VBool true); ("registeredAt", VDate 30);
             ("status", VStr "OFFLINE") ]).
  vm_compute. reflexivity.
Defined.

(** X4: what a registration leaves behind.  If [registerCamera] returns, the
    registry answers for the new id with the given URL, status OFFLINE and
    [enabled] true unless the config said false, and answers for every other
    id as before.  If it throws (missing field, URL without rtsp://, id
    already registered) the registry is unchanged, so a second registration
    of an id never replaces the stored URL. *)
Theorem register_then_lookup config now (cameras : Cameras) other :
  match registerCamera config now cameras with
  | (Returned _, cameras') =>
    getRTSPUrl (i_cameraId config) cameras' = Some (i_rtspUrl config) ∧
    get_field "status" <$> getCamera (i_cameraId config) cameras'
      = Some (Some (VStr "OFFLINE")) ∧
    isCameraEnabled (i_cameraId config) cameras'
      = (match i_enabled config with Some false => false | _ => true end) ∧
    (other ≠ i_cameraId config →
     getCamera other cameras' = getCamera other cameras ∧
     getRTSPUrl other cameras' = getRTSPUrl other cameras)
  | (Threw _, cameras') => cameras' = cameras
  end ∧
  (hasCamera (i_cameraId config) cameras = true →
   ∃ message, registerCamera config now cameras = (Threw message, cameras)).
Proof.
  split.
  - unfold registerCamera.
    destruct (negb (truthy (i_cameraId config)) || negb (truthy (i_rtspUrl config)))
      eqn:Hreq; [done|].
    destruct (negb (String.prefix "rtsp://" (i_rtspUrl config))); [done|].
    destruct (lookup_camera (i_cameraId config) cameras) eqn:Hl; [done|].
    apply orb_false_iff in Hreq as [Hid%negb_false_iff _].
    unfold getRTSPUrl, getCamera, isCameraEnabled.
    rewrite !lookup_camera_app, Hl, String.eqb_refl, Hid. simpl.
    do 3 (split; [done|]). intros Hne.
    apply String.eqb_neq in Hne. rewrite String.eqb_sym in Hne. rewrite Hne.
    by destruct (lookup_camera other cameras).
  - unfold registerCamera, hasCamera. intros Hhas.
    destruct (negb (truthy (i_cameraId config)) || negb (truthy (i_rtspUrl config)));
      [by eexists|].
    destruct (negb (String.prefix "rtsp://" (i_rtspUrl config))); [by eexists|].
    destruct (lookup_camera (i_cameraId config) cameras); [by eexists|done].
Qed.

(** X5: [updateCameraStatus] returns true exactly when id and status are
    non-empty, the status is ONLINE, OFFLINE or ERROR and the camera is
    registered; then [getCamera] shows the new status.  Otherwise the
    registry is unchanged.  In no case does it add or remove a camera or
    change a stored URL. *)
Theorem updateCameraStatus_effect cameraId status now (cameras : Cameras) other :
  let r := updateCameraStatus cameraId status now cameras in
  r.1 = truthy cameraId && truthy status
        && existsb (String.eqb status) validStatuses && hasCamera cameraId cameras ∧
  (if r.1
   then get_field "status" <$> getCamera cameraId r.2 = Some (Some (VStr status))
   else r.2 = cameras) ∧
  r.2.*1 = cameras.*1 ∧
  getRTSPUrl other r.2 = getRTSPUrl other cameras.
Proof.
  unfold updateCameraStatus, hasCamera.
  generalize (existsb (String.eqb status) validStatuses). intros v.
  destruct (truthy cameraId) eqn:Hid; simpl; [|done].
  destruct (truthy status); simpl; [|done].
  destruct v; simpl; [|done].
  destruct (lookup_camera cameraId cameras) as [c|] eqn:Hl; simpl; [|done].
  repeat split.
  - unfold getCamera. rewrite Hid. simpl.
    by rewrite lookup_update_camera, String.eqb_refl, Hl.
  - apply update_camera_keys.
  - unfold getRTSPUrl. rewrite lookup_update_camera.
    destruct (String.eqb cameraId other); [|done].
    by destruct (lookup_camera other cameras).
Qed.

End RegistryProperties.

(** ** Access control, token issue and the CCTV routes *)

Section ControlApiFacts.
Import Registry ControlApi.

Lemma includes_prefix sub s : String.prefix sub s = true → includes sub s = true.
Proof. intros H. destruct s; simpl in *; by rewrite H. Qed.

Lemma includes_app_r sub p s : includes sub s = true → includes sub (p +:+ s) = true.
Proof.
  intros H. induction p as [|a p IH]; simpl; [done|].
  rewrite IH. apply orb_true_r.
Qed.

Lemma getCamera_Some_iff id (cameras : Cameras) :
  is_Some (getCamera id cameras) ↔ truthy id = true ∧ hasCamera id cameras = true.
Proof.
  unfold getCamera, hasCamera. destruct (truthy id); simpl.
  - destruct (lookup_camera id cameras) as [c|].
    + split; [done|]. intros _. by exists (project c).
    + split; intros H; [by apply is_Some_None in H|by destruct H].
  - split; intros H; [by apply is_Some_None in H|by destruct H].
Qed.






End ControlApiFacts.

Section ControlApiProperties.
Import Registry ControlApi.

Variable MONITOR : string.
Variable STREAM_TOKEN_TTL : Z.
Variable GATEWAY_SECRET : option string.
Variable jwt_sign : TokenClaims → Z → string.
Variable jwt_verify_identity : string → Z → IdentityResult.

(** X6: [validateCameraAccess] allows exactly a MONITOR asking for a
    registered, enabled camera with a non-empty id, and [generateStreamToken]
    returns a token under exactly the same condition on the camera; the token
    is bound to that camera and expires STREAM_TOKEN_TTL seconds after it was
    issued.  For an unknown or disabled camera it throws. *)
Theorem access_and_issue cameraId role monitorId now (cameras : Cameras) :
  allowed (validateCameraAccess MONITOR cameraId role cameras)
    = String.eqb role MONITOR && truthy cameraId && isCameraEnabled cameraId cameras ∧
  match generateStreamToken STREAM_TOKEN_TTL jwt_sign cameraId monitorId now cameras with
  | Returned tokenData =>
    truthy cameraId && isCameraEnabled cameraId cameras = true ∧
    tokenCameraId tokenData = cameraId ∧
    expiresAt tokenData = now + STREAM_TOKEN_TTL * 1000
  | Threw _ => truthy cameraId && isCameraEnabled cameraId cameras = false
  end.
Proof.
  unfold validateCameraAccess, generateStreamToken, getCamera, isCameraEnabled.
  destruct (String.eqb role MONITOR), (truthy cameraId); simpl;
    destruct (lookup_camera cameraId cameras) as [c|]; simpl; try done;
    by destruct (enabled c).
Qed.





(** A report of three entries against [two_cameras]: a registered camera, an
    unknown camera and an entry without status. *)
Example health_callback_sample :
  (healthCallbackRoute GATEWAY_SECRET
     (match GATEWAY_SECRET with Some s => Some s | None => None end)
     (Some [mkHealthReport "CCTV_01" "ONLINE" "ok";
            mkHealthReport "CCTV_99" "ONLINE" "ok";
            mkHealthReport "CCTV_02" "" "ok"]) 5000 two_cameras).1
  = RespHealth 1 2 3.
Proof.
  unfold healthCallbackRoute. destruct GATEWAY_SECRET as [s|].
  - rewrite bool_decide_eq_true_2 by done. vm_compute. reflexivity.
  - vm_compute. reflexivity.
Qed.

End ControlApiProperties.

Section ControlApiRoutes.
Import Registry ControlApi.

Variable MONITOR : string.
Variable jwt_verify_identity : string → Z → IdentityResult.

Lemma authenticate_rejects_401 authHeader now resp :
  authenticateRequest jwt_verify_identity authHeader now = inl resp →
  response_code resp = 401 ∧ response_objects resp = [].
Proof.
  unfold authenticateRequest. intros H. repeat case_match; by simplify_eq.
Qed.

Lemma has_field_app name (o1 o2 : JsObject) :
  has_field name (o1 ++ o2)%list = has_field name o1 || has_field name o2.
Proof. unfold has_field. apply existsb_app. Qed.

Lemma has_field_str_field name name' (obj : JsObject) :
  String.eqb name' name = false → has_field name (str_field name' obj) = false.
Proof.
  intros Hne. unfold str_field. destruct (get_field name' obj); [|done].
  simpl. by rewrite Hne.
Qed.

(** X9: POST /cameras needs a valid bearer token but no MONITOR role.  It
    answers 201 exactly when id and URL are present, the URL starts with
    rtsp:// and the id is not registered yet, and then the registry holds the
    camera under that URL.  Every failure is a 401 or a 400 (never a 500) and
    leaves the registry unchanged. *)
Theorem post_cameras_route_effect authHeader body now (cameras : Cameras) :
  let r := postCamerasRoute jwt_verify_identity authHeader body now cameras in
  response_code r.1 ∈ [201; 400; 401] ∧
  (response_code r.1 = 201 ↔
   (∃ user, authenticateRequest jwt_verify_identity authHeader now = inr user) ∧
   truthy (b_cameraId body) = true ∧
   String.prefix "rtsp://" (b_rtspUrl body) = true ∧
   hasCamera (b_cameraId body) cameras = false) ∧
  (if bool_decide (response_code r.1 = 201)
   then getRTSPUrl (b_cameraId body) r.2 = Some (b_rtspUrl body)
   else r.2 = cameras).
Proof.
  unfold postCamerasRoute.
  destruct (authenticateRequest jwt_verify_identity authHeader now) as [resp|user] eqn:Ha.
  { apply authenticate_rejects_401 in Ha as [Hc _]. simpl. rewrite Hc.
    split; [set_solver|]. split; [|done]. split; [done|]. by intros [[u ?] _]. }
  destruct (truthy (b_cameraId body)) eqn:Hid; simpl.
  2:{ split; [set_solver|]. split; [|done]. split; [done|]. by intros (_ & ? & _). }
  destruct (truthy (b_rtspUrl body)) eqn:Hurl; simpl.
  2:{ split; [set_solver|]. split; [|done]. split; [done|].
      intros (_ & _ & Hp & _). by destruct (b_rtspUrl body). }
  unfold registerCamera. simpl. rewrite Hid, Hurl. simpl.
  destruct (String.prefix "rtsp://" (b_rtspUrl body)) eqn:Hp; simpl.
  2:{ split; [set_solver|]. split; [|done]. split; [done|]. by intros (_ & _ & ? & _). }
  unfold hasCamera.
  destruct (lookup_camera (b_cameraId body) cameras) as [c|] eqn:Hl; simpl.
  - assert (Hinc : includes "already"
                     ("" +:+ b_cameraId body +:+ " already registered") = true)
      by (by do 2 apply includes_app_r).
    rewrite Hinc, !orb_true_r. simpl.
    split; [set_solver|]. split; [|done]. split; [done|]. by intros (_ & _ & _ & ?).
  - split; [set_solver|]. split.
    + split; [|done]. intros _. repeat split; try done. by exists user.
    + simpl. unfold getRTSPUrl. by rewrite lookup_camera_app, Hl, String.eqb_refl.
Qed.

(** X10: no answer of GET /cameras, GET /cameras/:cameraId or POST /cameras
    carries a camera object with an [rtspUrl] field, and a client whose role
    is not MONITOR gets no camera object at all from the two GET routes. *)
Theorem routes_hide_rtspUrl authHeader enabled cameraId body now (cameras : Cameras) :
  let list_r := getCamerasRoute MONITOR jwt_verify_identity authHeader enabled now cameras in
  let one_r := getCameraRoute MONITOR jwt_verify_identity authHeader cameraId now cameras in
  let post_r := postCamerasRoute jwt_verify_identity authHeader body now cameras in
  forallb (λ obj, negb (has_field "rtspUrl" obj))
    (response_objects list_r ++ response_objects one_r ++ response_objects post_r.1)%list
    = true ∧
  match authenticateRequest jwt_verify_identity authHeader now with
  | inr user =>
    if String.eqb (role user) MONITOR then True
    else response_objects list_r = [] ∧ response_objects one_r = [] ∧
         response_code list_r = 403 ∧ response_code one_r = 403
  | inl _ => response_objects list_r = [] ∧ response_objects one_r = []
  end.
Proof.
  unfold getCamerasRoute, getCameraRoute, postCamerasRoute.
  destruct (authenticateRequest jwt_verify_identity authHeader now) as [resp|user] eqn:Ha.
  { apply authenticate_rejects_401 in Ha as [_ Ho]. simpl. by rewrite Ho. }
  unfold requireMonitor.
  destruct (String.eqb (role user) MONITOR); simpl.
  2:{ split; [|done]. repeat case_match; simpl; try done.
      all: simplify_eq; simpl.
      all: by rewrite !has_field_app, !has_field_str_field. }
  split; [|done]. rewrite !forallb_app. repeat (apply andb_true_iff; split).
  - destruct enabled as [e|]; [destruct (String.eqb e "true")|]; simpl;
      unfold getEnabledCameras, getAllCameras;
      try apply forallb_filter; apply projections_no_rtspUrl.
  - unfold getCamera. destruct (truthy cameraId); simpl; [|done].
    by destruct (lookup_camera cameraId cameras).
  - repeat case_match; simpl; try done.
    all: simplify_eq; simpl.
    all: by rewrite !has_field_app, !has_field_str_field.
Qed.

End ControlApiRoutes.

(** ** From the token issuer to the gateway *)

Section IssueAndAdmit.

Variable STREAM_TOKEN_TTL : Z.
Variable jwt_sign : ControlApi.TokenClaims → Z → string.
Variable jwt_verify : string → Z → StreamToken.JwtResult.

(** X11: a token that [generateStreamToken] issued at time [t0] admits one
    viewer.  If the gateway's [jwt.verify] decodes it to the claims that were
    signed and it has not been presented before, then up to its expiry
    [t0 + STREAM_TOKEN_TTL * 1000] the /webrtc handshake accepts it for the
    camera it was issued for, and a second handshake with the same token is
    refused with 401 'Token already used'. *)
Theorem issued_token_admits_once cameraId monitorId t0 t t'
    (cameras : Registry.Cameras) (used : StreamToken.UsedTokens) tokenData :
  ControlApi.generateStreamToken STREAM_TOKEN_TTL jwt_sign cameraId monitorId t0 cameras
    = Registry.Returned tokenData →
  truthy (ControlApi.token tokenData) = true →
  used !! ControlApi.token tokenData = None →
  jwt_verify (ControlApi.token tokenData) t
    = StreamToken.Decoded
        (StreamToken.mkPayload cameraId
           (StreamToken.ExpDate (ValidDate (ControlApi.expiresAt tokenData)))
           (Some ["VIEW"])) →
  t ≤ t0 + STREAM_TOKEN_TTL * 1000 →
  let first := StreamToken.verifyClient jwt_verify (Some (ControlApi.token tokenData)) t used in
  first.1 = StreamToken.Accept
              (StreamToken.mkValidation true None (Some cameraId)
                 (Some (ValidDate (t0 + STREAM_TOKEN_TTL * 1000))) (Some ["VIEW"])) ∧
  (StreamToken.verifyClient jwt_verify (Some (ControlApi.token tokenData)) t' first.2).1
    = StreamToken.Reject 401 "Token already used".
Proof.
  destruct tokenData as [tok exp cam].
  cbn [ControlApi.token ControlApi.expiresAt ControlApi.tokenCameraId].
  intros Hgen Htok Hfresh Hdec Hle.
  unfold ControlApi.generateStreamToken in Hgen.
  destruct (Registry.getCamera cameraId cameras) eqn:Hcam; [|done].
  destruct (negb (Registry.isCameraEnabled cameraId cameras)); [done|].
  injection Hgen as _ Hexp _. subst exp.
  assert (Hid : truthy cameraId = true).
  { unfold Registry.getCamera in Hcam. by destruct (truthy cameraId). }
  assert (Hlt : (t0 + STREAM_TOKEN_TTL * 1000 <? t) = false)
    by (apply Z.ltb_ge; lia).
  assert (Hval : StreamToken.validateStreamToken jwt_verify tok t used
                 = (StreamToken.mkValidation true None (Some cameraId)
                      (Some (ValidDate (t0 + STREAM_TOKEN_TTL * 1000))) (Some ["VIEW"]),
                    <[tok := Some (t0 + STREAM_TOKEN_TTL * 1000)]> used)).
  { unfold StreamToken.validateStreamToken.
    rewrite Htok. cbn [negb]. rewrite Hfresh, Hdec. cbn [StreamToken.cameraId].
    rewrite Hid. cbn [negb StreamToken.expiresAt getTime js_lt]. by rewrite Hlt. }
  assert (Hfirst : StreamToken.verifyClient jwt_verify (Some tok) t used
                   = (StreamToken.Accept
                        (StreamToken.mkValidation true None (Some cameraId)
                           (Some (ValidDate (t0 + STREAM_TOKEN_TTL * 1000)))
                           (Some ["VIEW"])),
                      <[tok := Some (t0 + STREAM_TOKEN_TTL * 1000)]> used)).
  { unfold StreamToken.verifyClient. rewrite Htok. cbn [negb]. rewrite Hval.
    reflexivity. }
  rewrite Hfirst. split; [reflexivity|]. cbn [fst snd].
  unfold StreamToken.verifyClient, StreamToken.validateStreamToken.
  rewrite Htok. cbn [negb]. by rewrite lookup_insert_eq.
Qed.

End IssueAndAdmit.

Lemma issued_token_admits_once_witness :
  let first := StreamToken.verifyClient StreamToken.sample_verify (Some "T1") 50000 ∅ in
  first.1 = StreamToken.Accept
              (StreamToken.mkValidation true None (Some "CCTV_01")
                 (Some (ValidDate (40000 + 60 * 1000))) (Some ["VIEW"])) ∧
  (StreamToken.verifyClient StreamToken.sample_verify (Some "T1") 50010 first.2).1
    = StreamToken.Reject 401 "Token already used".
Proof.
  apply (issued_token_admits_once 60 ControlApi.sample_sign StreamToken.sample_verify
           "CCTV_01" "MONITOR_01" 40000 50000 50010
           Registry.two_cameras ∅
           (ControlApi.mkStreamTokenData "T1" 100000 "CCTV_01")).
  - vm_compute. reflexivity.
  - reflexivity.
  - reflexivity.
  - vm_compute. reflexivity.
  - lia.
Defined.


(** ** More of the session store *)

Section SessionStoreFacts.
Import Sessions.

Lemma step_session_ok (st : Store) ev :
  map_Forall session_ok st → map_Forall session_ok (step st ev).
Proof.
  intros H. destruct ev as [k m sock now|k|sock|k|k now|k cs who now|k role mu]; simpl.
  - unfold createSession.
    destruct (truthy k) eqn:Hk, (truthy m) eqn:Hm, (truthy sock) eqn:Hs; simpl; try done.
    destruct (st !! k); simpl; [done|].
    by apply map_Forall_insert_2.
  - unfold endSession. repeat case_match; simpl; try done.
    by apply map_Forall_delete.
  - unfold endSessionByMonitorSocket. case_match; [done|].
    intros k s [Hs _]%map_lookup_filter_Some. by apply (H k).
  - unfold endSessionByKiosk, endSession. repeat case_match; simpl; try done.
    by apply map_Forall_delete.
  - unfold updateSessionActivity. case_match; [done|].
    destruct (st !! k) as [s|] eqn:Hs; simpl; [|done].
    apply map_Forall_insert_2; [|done]. exact (H k s Hs).
  - unfold updateCallState. case_match; [done|].
    destruct (st !! k) as [s|] eqn:Hs; simpl; [|done].
    pose proof (H k s Hs) as Hok.
    destruct (String.eqb cs "ended" || String.eqb cs "idle"); simpl;
      by apply map_Forall_insert_2.
  - unfold updateMediaState. destruct mu as [u|]; [|done].
    case_match; [done|].
    destruct (st !! k) as [s|] eqn:Hs; simpl; [|done].
    apply map_Forall_insert_2; [|done]. exact (H k s Hs).
Qed.

Lemma run_session_ok evs : ∀ st : Store,
  map_Forall session_ok st → map_Forall session_ok (run st evs).
Proof.
  induction evs as [|ev evs IH]; intros st H; [done|].
  unfold run. simpl. apply IH. by apply step_session_ok.
Qed.

Lemma elem_of_getTimedOutSessions timeoutMs cfg now (st : Store) s' :
  s' ∈ getTimedOutSessions timeoutMs cfg now st →
  ∃ k s, st !! k = Some s ∧ kioskId s' = k ∧
         (match timeoutMs with Some t => t | None => cfg end) < now - lastActivityAt s.
Proof.
  unfold getTimedOutSessions. intros ([k s] & Hin & Hf)%list_elem_of_omap.
  apply elem_of_map_to_list in Hin. simpl in Hf.
  destruct (negb (String.eqb (status s) "active")); [done|].
  destruct (_ <? _) eqn:Hlt; [|done]. apply Z.ltb_lt in Hlt.
  injection Hf as <-. by exists k, s.
Qed.

End SessionStoreFacts.

Section SessionStoreProperties.
Import Sessions.

(** X12: in every state the session store reaches from empty, each session
    sits under its own kiosk id, is active and has non-empty ids.  Hence
    [getSession] and [hasActiveSession] agree with the map, and
    [validateSessionOwnership] is true exactly for the socket that created
    the session. *)
Theorem session_store_well_formed evs k sock :
  let st := run ∅ evs in
  map_Forall session_ok st ∧
  getSession k st = st !! k ∧
  hasActiveSession k st = bool_decide (is_Some (st !! k)) ∧
  validateSessionOwnership k sock st
    = bool_decide (monitorSocketId <$> st !! k = Some sock).
Proof.
  intros st.
  assert (Hok : map_Forall session_ok st).
  { apply run_session_ok. apply map_Forall_empty. }
  split; [done|].
  unfold getSession, hasActiveSession, validateSessionOwnership.
  destruct (st !! k) as [s|] eqn:Hs; simpl.
  - destruct (Hok k s Hs) as (_ & Hst & Hk & _ & Hsock).
    rewrite Hk, Hst. simpl. repeat split.
    destruct (truthy sock) eqn:Htr; simpl.
    + destruct (String.eqb (monitorSocketId s) sock) eqn:He.
      * apply String.eqb_eq in He as ->. by rewrite bool_decide_eq_true_2.
      * apply String.eqb_neq in He. rewrite bool_decide_eq_false_2; [done|congruence].
    + rewrite bool_decide_eq_false_2; [done|]. intros [= <-]. congruence.
  - destruct (truthy k); simpl; repeat split; by destruct (truthy sock).
Qed.

(** X13: creating a session and ending it is a round trip.  When
    [createSession] returns, [endSession] for that kiosk hands back the same
    session marked ended and the store is what it was before; when it throws,
    the store is unchanged. *)
Theorem create_end_roundtrip k m sock now (st : Store) :
  match createSession k m sock now st with
  | (Returned s, st') =>
    st !! k = None ∧ st' !! k = Some s ∧
    endSession k st'
      = (Some (mkSession (kioskId s) (monitorId s) (monitorSocketId s) (startedAt s)
                 (lastActivityAt s) "ended" (callState s) (callInitiatedBy s)
                 (callStartedAt s) (mediaState s)), st)
  | (Threw _, st') => st' = st
  end.
Proof.
  unfold createSession.
  destruct (truthy k) eqn:Hk; simpl; [|done].
  destruct (negb (truthy m) || negb (truthy sock)); [done|].
  destruct (st !! k) eqn:Hs; [done|].
  split; [done|]. split; [apply lookup_insert_eq|].
  unfold endSession. rewrite Hk. simpl. rewrite lookup_insert_eq.
  by rewrite delete_insert_eq, delete_id.
Qed.

(** X14: a session never changes hands.  Whatever single call is made on
    the store, the session of a kiosk is afterwards either gone or still has
    the same kiosk, monitor, monitor socket and start time: another monitor
    can take a kiosk over only after its session was ended. *)
Theorem session_owner_stable (st : Store) ev k :
  match st !! k, step st ev !! k with
  | Some s, Some s' =>
    kioskId s' = kioskId s ∧ monitorId s' = monitorId s ∧
    monitorSocketId s' = monitorSocketId s ∧ startedAt s' = startedAt s
  | _, _ => True
  end.
Proof.
  destruct (st !! k) as [s|] eqn:Hs; [|done].
  assert (Hins : ∀ k' s0 s1, st !! k' = Some s0 →
            kioskId s1 = kioskId s0 → monitorId s1 = monitorId s0 →
            monitorSocketId s1 = monitorSocketId s0 → startedAt s1 = startedAt s0 →
            match (<[k' := s1]> st : Store) !! k with
            | Some s' => kioskId s' = kioskId s ∧ monitorId s' = monitorId s ∧
                         monitorSocketId s' = monitorSocketId s ∧ startedAt s' = startedAt s
            | None => True
            end).
  { intros k' s0 s1 H0 H1 H2 H3 H4. destruct (decide (k' = k)) as [->|Hne].
    - rewrite lookup_insert_eq. rewrite Hs in H0. injection H0 as <-. done.
    - rewrite lookup_insert_ne by done. by rewrite Hs. }
  assert (Hid : match st !! k with
                | Some s' => kioskId s' = kioskId s ∧ monitorId s' = monitorId s ∧
                             monitorSocketId s' = monitorSocketId s ∧ startedAt s' = startedAt s
                | None => True
                end) by (by rewrite Hs).
  assert (Hdel : ∀ k', match (delete k' st : Store) !! k with
                | Some s' => kioskId s' = kioskId s ∧ monitorId s' = monitorId s ∧
                             monitorSocketId s' = monitorSocketId s ∧ startedAt s' = startedAt s
                | None => True
                end).
  { intros k'. destruct (decide (k' = k)) as [->|Hne].
    - by rewrite lookup_delete_eq.
    - rewrite lookup_delete_ne by done. by rewrite Hs. }
  destruct ev as [k' m sock now|k'|sock|k'|k' now|k' cs who now|k' role mu]; simpl.
  - unfold createSession.
    destruct (negb (truthy k') || negb (truthy m) || negb (truthy sock)); [done|].
    destruct (st !! k') eqn:H0; [done|]. simpl.
    destruct (decide (k' = k)) as [->|Hne]; [congruence|].
    rewrite lookup_insert_ne by done. by rewrite Hs.
  - unfold endSession. destruct (negb (truthy k')); [done|].
    destruct (st !! k'); [apply Hdel|done].
  - unfold endSessionByMonitorSocket. destruct (negb (truthy sock)); [done|].
    destruct (filter _ st !! k) as [s'|] eqn:Hf; [|done].
    apply map_lookup_filter_Some in Hf as [Hf _]. rewrite Hs in Hf. by injection Hf as <-.
  - unfold endSessionByKiosk, endSession. destruct (negb (truthy k')); [done|].
    destruct (st !! k'); [apply Hdel|done].
  - unfold updateSessionActivity. destruct (negb (truthy k')); [done|].
    destruct (st !! k') as [s0|] eqn:H0; [|done].
    by apply (Hins k' s0).
  - unfold updateCallState. destruct (negb (truthy k') || negb (truthy cs)); [done|].
    destruct (st !! k') as [s0|] eqn:H0; [|done].
    destruct (String.eqb cs "ended" || String.eqb cs "idle"); simpl;
      by apply (Hins k' s0).
  - unfold updateMediaState. destruct mu as [u|]; [|done].
    destruct (negb (truthy k') || negb (truthy role)); [done|].
    destruct (st !! k') as [s0|] eqn:H0; [|done].
    by apply (Hins k' s0).
Qed.

(** X15: when a monitor disconnects, [endSessionByMonitorSocket] ends every
    session of its socket and no other: afterwards that socket owns no
    session, a session of any other socket is still there unchanged, and no
    session has appeared. *)
Theorem monitor_disconnect_cleanup sock (st : Store) k :
  let st' := endSessionByMonitorSocket sock st in
  st' !! k = (if truthy sock
              then match st !! k with
                   | Some s => if String.eqb (monitorSocketId s) sock then None else Some s
                   | None => None
                   end
              else st !! k) ∧
  (if truthy sock then validateSessionOwnership k sock st' = false else st' = st).
Proof.
  unfold endSessionByMonitorSocket. destruct (truthy sock) eqn:Htr; simpl; [|done].
  assert (Hl : filter (λ kv : string * Session, monitorSocketId kv.2 ≠ sock) st !! k
               = match st !! k with
                 | Some s => if String.eqb (monitorSocketId s) sock then None else Some s
                 | None => None
                 end).
  { destruct (st !! k) as [s|] eqn:Hs.
    - destruct (String.eqb (monitorSocketId s) sock) eqn:He.
      + apply String.eqb_eq in He. apply map_lookup_filter_None. right.
        intros s' Hs'. simpl. rewrite Hs in Hs'. injection Hs' as <-. by intros ?.
      + apply String.eqb_neq in He. by apply map_lookup_filter_Some.
    - apply map_lookup_filter_None. by left. }
  split; [done|].
  unfold validateSessionOwnership. rewrite Htr. rewrite Hl.
  destruct (truthy k); simpl; [|done].
  destruct (st !! k) as [s|]; [|done].
  destruct (String.eqb (monitorSocketId s) sock) eqn:He; [done|].
  rewrite He. by destruct (negb _).
Qed.

(** X16: activity keeps a session alive.  After [updateSessionActivity] for
    a kiosk has returned true at time [now], [getTimedOutSessions] does not
    report that kiosk at any time [now'] with [now' - now] within the
    timeout. *)
Theorem activity_defers_timeout k now now' timeoutMs cfg (st : Store) :
  (updateSessionActivity k now st).1 = true →
  now' - now ≤ (match timeoutMs with Some t => t | None => cfg end) →
  Forall (λ s, kioskId s ≠ k)
    (getTimedOutSessions timeoutMs cfg now' (updateSessionActivity k now st).2).
Proof.
  unfold updateSessionActivity. destruct (truthy k); simpl; [|done].
  destruct (st !! k) as [s|] eqn:Hs; simpl; [|done].
  intros _ Hle. apply Forall_forall. intros s' Hin Heq.
  apply elem_of_getTimedOutSessions in Hin as (k' & s0 & Hl & Hk & Hlt).
  rewrite Heq in Hk. subst k'. rewrite lookup_insert_eq in Hl.
  injection Hl as <-. simpl in Hlt. lia.
Qed.

Lemma activity_defers_timeout_witness :
  Forall (λ s, kioskId s ≠ "KIOSK_01")
    (getTimedOutSessions None 300000 302000
       (updateSessionActivity "KIOSK_01" 2000 in_call).2).
Proof.
  apply (activity_defers_timeout "KIOSK_01" 2000 302000 None 300000 in_call).
  - vm_compute. reflexivity.
  - simpl. lia.
Defined.

(** Without the refresh the same session is reported at that time. *)
Example idle_session_times_out :
  kioskId <$> getTimedOutSessions None 300000 302000 in_call = ["KIOSK_01"] ∧
  getTimedOutSessions None (setSessionTimeout 0 300000) 300000 in_call = [].
Proof. vm_compute. split; reflexivity. Qed.

End SessionStoreProperties.

(** ** More of the RTSP stream supervisor *)

Section RtspLinkFacts.
Import Rtsp.

Variables (MAX_VIEWERS_PER_CAMERA STREAM_TIMEOUT_NO_VIEWERS : Z).

Lemma ids_insert (h : list StreamInfo) r si' :
  (cameraId <$> h) !! r = Some (cameraId si') →
  cameraId <$> <[r := si']> h = cameraId <$> h.
Proof.
  intros H. rewrite list_fmap_insert. by apply list_insert_id.
Qed.

Lemma ids_lookup (h : list StreamInfo) r si :
  h !! r = Some si → (cameraId <$> h) !! r = Some (cameraId si).
Proof. intros H. by rewrite list_lookup_fmap, H. Qed.

Lemma ids_update (h : list StreamInfo) r si si' :
  h !! r = Some si → cameraId si' = cameraId si →
  cameraId <$> <[r := si']> h = cameraId <$> h.
Proof.
  intros H Heq. apply ids_insert. rewrite Heq. by apply ids_lookup.
Qed.

Lemma stopStream_ids c now st :
  cameraId <$> heap (stopStream c now st) = cameraId <$> heap st.
Proof.
  unfold stopStream.
  destruct (activeStreams st !! c) as [r|]; [|done].
  destruct (heap st !! r) as [si|] eqn:Hr; [|done].
  destruct (status si); simpl; try done; by eapply ids_update.
Qed.


Lemma stopStream_linked c now st : linked st → linked (stopStream c now st).
Proof.
  intros H c' r'. rewrite stopStream_active, stopStream_ids. apply H.
Qed.

Lemma startStream_linked c now st : linked st → linked (startStream c now st).2.
Proof.
  intros H. unfold startStream.
  destruct (cameraRegistry st !! c) as [camera|]; [|done].
  destruct (enabled camera); simpl; [|done].
  assert (Hnew : ∀ st1 t, linked st1 →
            linked (updateStreamHealth c "ONLINE" "Stream started successfully" now
              (mkSupervisor (cameraRegistry st1)
                 (heap st1 ++ [mkStreamInfo c (Some (length (heap st1))) t 0 t
                                 RUNNING "webrtc" 0 None])
                 (<[c := length (heap st1)]> (activeStreams st1)) (streamHealth st1)
                 (restartTimers st1) (S (spawned st1))))).
  { intros st1 t H1 c' r'. simpl. rewrite fmap_app. simpl.
    destruct (decide (c = c')) as [->|Hne].
    - rewrite lookup_insert_eq. intros [= <-].
      rewrite lookup_app_r by (by rewrite length_fmap).
      by rewrite length_fmap, Nat.sub_diag.
    - rewrite lookup_insert_ne by done. intros Hc. apply lookup_app_l_Some. by apply H1. }
  destruct (activeStreams st !! c) as [r|]; [|by apply Hnew].
  destruct (heap st !! r) as [si|]; [|by apply Hnew].
  destruct (status si); simpl; try done; try by apply Hnew.
  by apply Hnew, stopStream_linked.
Qed.

Lemma insert_linked st r si' :
  linked st → (cameraId <$> heap st) !! r = Some (cameraId si') →
  linked (with_heap (<[r := si']> (heap st)) st).
Proof.
  intros H Hr c' r'. simpl. rewrite ids_insert by done. apply H.
Qed.

Lemma step_linked st ev :
  linked st → linked (step MAX_VIEWERS_PER_CAMERA STREAM_TIMEOUT_NO_VIEWERS st ev).
Proof.
  intros H. destruct ev; simpl.
  - unfold registerCamera. by repeat case_match.
  - by apply startStream_linked.
  - by apply stopStream_linked.
  - unfold addViewer.
    destruct (activeStreams st !! cameraId0) as [r|]; [|done].
    destruct (heap st !! r) as [si|] eqn:Hr; [|done].
    case_match; [done|]. simpl. apply insert_linked; [done|]. simpl. by apply ids_lookup.
  - unfold removeViewer.
    destruct (activeStreams st !! cameraId0) as [r|]; [|done].
    destruct (heap st !! r) as [si|] eqn:Hr; [|done].
    assert (linked (with_heap (<[r := set_viewerCount (Z.max 0 (viewerCount si - 1)) si]>
                                 (heap st)) st))
      by (apply insert_linked; [done|]; simpl; by apply ids_lookup).
    case_match; [by apply stopStream_linked|done].
  - unfold onStdoutData. destruct (heap st !! r) as [si|] eqn:Hr; [|done].
    apply insert_linked; [done|]. simpl. by apply ids_lookup.
  - unfold onExit. destruct (heap st !! r) as [si|] eqn:Hr; [|done].
    pose proof (ids_lookup _ _ _ Hr) as Hid.
    assert (Herr : linked (with_heap (<[r := set_status ERROR si]> (heap st)) st))
      by (by apply insert_linked).
    assert (Hres : ∀ msg t n,
              linked (with_timers (restartTimers st ++ [(cameraId si, r)])
                (with_heap
                   (<[r := set_restart n (Some t) (set_status ERROR si)]>
                      (<[r := set_status ERROR si]> (heap st)))
                   (updateStreamHealth (cameraId si) "ERROR" msg t
                      (with_heap (<[r := set_status ERROR si]> (heap st)) st))))).
    { intros msg t n c' r'. simpl. rewrite !ids_insert; [apply H|done|].
      by rewrite ids_insert. }
    destruct (status si); simpl.
    1,2,4,5: destruct (restartCount si <? 5); [apply Hres|exact Herr].
    intros c' r'. simpl. rewrite ids_insert by done.
    intros [_ Hc]%lookup_delete_Some. by apply H.
  - unfold onError. destruct (heap st !! r) as [si|] eqn:Hr; [|done].
    intros c' r'. simpl. rewrite ids_insert by (simpl; by apply ids_lookup). apply H.
  - unfold onRestartTimer. destruct (restartTimers st) as [|[c r] rest]; [done|].
    simpl. destruct (activeStreams st !! c); [|done].
    destruct (heap st !! r) as [si|]; [|done].
    destruct (status si); try done.
    by apply (startStream_linked c now (with_timers rest st)).
  - unfold reaper. generalize (map_to_list (activeStreams st)) as l.
    intros l. revert st H. induction l as [|entry l IH]; intros st H; [done|].
    simpl. apply IH. unfold reap_one.
    destruct (heap st !! entry.2); [|done].
    case_match; [by apply stopStream_linked|done].
Qed.

Lemma run_linked evs : ∀ st,
  linked st → linked (run MAX_VIEWERS_PER_CAMERA STREAM_TIMEOUT_NO_VIEWERS st evs).
Proof.
  induction evs as [|ev evs IH]; intros st H; [done|].
  unfold run. simpl. apply IH. by apply step_linked.
Qed.

End RtspLinkFacts.

Section RtspProperties.
Import Rtsp.


(** X17: in every state that the supervisor reaches, every entry of
    [activeStreams] leads to a [streamInfo] of that very camera: [getStream]
    finds an object exactly for the cameras in the map, and the object it
    finds carries the camera id it was asked for. *)
Theorem active_streams_linked MAX TIMEOUT evs c :
  let st := run MAX TIMEOUT initial evs in
  linked st ∧
  match activeStreams st !! c with
  | Some r => ∃ si, getStream c st = Some si ∧ cameraId si = c
  | None => getStream c st = None
  end.
Proof.
  intros st.
  assert (H : linked st) by (apply run_linked; intros c' r'; simpl; by rewrite lookup_empty).
  split; [done|]. unfold getStream.
  destruct (activeStreams st !! c) as [r|] eqn:Ha; [|done].
  specialize (H c r Ha). rewrite list_lookup_fmap in H.
  destruct (heap st !! r) as [si|]; [|done]. injection H as H. by exists si.
Qed.

(** X18: [stopStream] is idempotent: stopping a stream that is already
    being stopped changes nothing, not even the health record. *)
Theorem stopStream_idempotent c now now' st :
  stopStream c now' (stopStream c now st) = stopStream c now st.
Proof.
  unfold stopStream at 2 3.
  destruct (activeStreams st !! c) as [r|] eqn:Ha; [|by unfold stopStream; rewrite Ha].
  destruct (heap st !! r) as [si|] eqn:Hr; [|by unfold stopStream; rewrite Ha, Hr].
  pose proof (lookup_lt_Some _ _ _ Hr) as Hlt.
  destruct (status si) eqn:Hst;
    unfold stopStream; simpl; rewrite Ha;
    rewrite ?list_lookup_insert_eq by done; rewrite ?Hr; simpl; by rewrite ?Hst.
Qed.


(** A camera whose stream ended in ERROR is started afresh; a second call
    hands the new stream back. *)
Example startStream_after_error :
  let st := run 10 60000 (one_camera "CCTV_01") [EvError 0 "spawn ENOENT" 2000] in
  status <$> getStream "CCTV_01" st = Some ERROR ∧
  (startStream "CCTV_01" 3000 st).1 = Started 1 ∧
  (startStream "CCTV_01" 4000 (startStream "CCTV_01" 3000 st).2).1 = AlreadyActive 1.
Proof. vm_compute. repeat split; reflexivity. Qed.

End RtspProperties.

Section RtspLifecycle.
Import Rtsp.

(** X20: a graceful stop.  For a stream that is neither STOPPING nor
    STOPPED, [stopStream] followed by the exit of its child takes the camera
    out of [activeStreams], leaves the object STOPPED and the health record
    OFFLINE, and neither schedules a restart nor spawns a child. *)
Theorem graceful_stop MAX TIMEOUT c r si now now' code signal st :
  activeStreams st !! c = Some r → heap st !! r = Some si → cameraId si = c →
  status si ≠ STOPPING → status si ≠ STOPPED →
  let st' := run MAX TIMEOUT st [EvStopStream c now; EvExit r code signal now'] in
  activeStreams st' !! c = None ∧
  status <$> heap st' !! r = Some STOPPED ∧
  h_status <$> streamHealth st' !! c = Some "OFFLINE" ∧
  restartTimers st' = restartTimers st ∧
  spawned st' = spawned st.
Proof.
  intros Ha Hr Hc Hs1 Hs2. pose proof (lookup_lt_Some _ _ _ Hr) as Hlt.
  unfold run. simpl. unfold stopStream. rewrite Ha, Hr.
  assert (Hgo : ∀ st1,
            st1 = updateStreamHealth c "OFFLINE" "Stream stopped" now
                    (with_heap (<[r := set_status STOPPING si]> (heap st)) st) →
            let st' := onExit r code signal now' st1 in
            activeStreams st' !! c = None ∧
            status <$> heap st' !! r = Some STOPPED ∧
            h_status <$> streamHealth st' !! c = Some "OFFLINE" ∧
            restartTimers st' = restartTimers st ∧ spawned st' = spawned st).
  { intros st1 ->. unfold onExit. simpl.
    rewrite list_lookup_insert_eq by done. simpl. rewrite Hc.
    rewrite lookup_delete_eq, list_lookup_insert_eq by (by rewrite length_insert).
    by rewrite lookup_insert_eq. }
  destruct (status si); try done; by apply Hgo.
Qed.

Lemma graceful_stop_witness :
  let st' := run 10 60000 (one_camera "CCTV_01")
               [EvStopStream "CCTV_01" 5000; EvExit 0 "null" "SIGTERM" 5100] in
  activeStreams st' !! "CCTV_01" = None ∧
  status <$> heap st' !! 0%nat = Some STOPPED ∧
  h_status <$> streamHealth st' !! "CCTV_01" = Some "OFFLINE" ∧
  restartTimers st' = restartTimers (one_camera "CCTV_01") ∧
  spawned st' = spawned (one_camera "CCTV_01").
Proof.
  apply (graceful_stop 10 60000 "CCTV_01" 0
           (mkStreamInfo "CCTV_01" (Some 0%nat) 0 0 0 RUNNING "webrtc" 0 None)
           5000 5100 "null" "SIGTERM" (one_camera "CCTV_01")).
  - vm_compute. reflexivity.
  - vm_compute. reflexivity.
  - reflexivity.
  - simpl. discriminate.
  - simpl. discriminate.
Defined.

(** X21: a stop cancels a pending restart.  If the child of a RUNNING stream
    exits unexpectedly and [stopStream] is called before the restart callback
    fires, the callback does nothing: no child is spawned, no further restart
    is pending, and the stream stays STOPPING. *)
Theorem stop_cancels_restart MAX TIMEOUT c r si t1 t2 t3 code signal st :
  activeStreams st !! c = Some r → heap st !! r = Some si → cameraId si = c →
  status si = RUNNING → restartTimers st = [] →
  let st' := run MAX TIMEOUT st
               [EvExit r code signal t1; EvStopStream c t2; EvRestartTimer t3] in
  spawned st' = spawned st ∧ restartTimers st' = [] ∧
  status <$> getStream c st' = Some STOPPING.
Proof.
  intros Ha Hr Hc Hs Ht. pose proof (lookup_lt_Some _ _ _ Hr) as Hlt.
  destruct st as [reg h act hl tm sp]. simpl in *. subst tm.
  unfold run. simpl. unfold onExit. simpl. rewrite Hr, Hs. simpl.
  destruct (restartCount si <? 5); simpl.
  - unfold stopStream. simpl. rewrite Hc, Ha.
    rewrite list_lookup_insert_eq by (by rewrite length_insert). simpl.
    unfold onRestartTimer. simpl. rewrite Ha.
    rewrite list_lookup_insert_eq by (by rewrite !length_insert). simpl.
    unfold getStream. simpl. rewrite Ha.
    by rewrite list_lookup_insert_eq by (by rewrite !length_insert).
  - unfold stopStream. simpl. rewrite Ha.
    rewrite list_lookup_insert_eq by done. simpl.
    unfold onRestartTimer, getStream. simpl. rewrite Ha.
    by rewrite list_lookup_insert_eq by (by rewrite !length_insert).
Qed.

Lemma stop_cancels_restart_witness :
  let st' := run 10 60000 (one_camera "CCTV_01")
               [EvExit 0 "1" "null" 1000; EvStopStream "CCTV_01" 2000;
                EvRestartTimer 6000] in
  spawned st' = spawned (one_camera "CCTV_01") ∧ restartTimers st' = [] ∧
  status <$> getStream "CCTV_01" st' = Some STOPPING.
Proof.
  apply (stop_cancels_restart 10 60000 "CCTV_01" 0
           (mkStreamInfo "CCTV_01" (Some 0%nat) 0 0 0 RUNNING "webrtc" 0 None)
           1000 2000 6000 "1" "null" (one_camera "CCTV_01")).
  - vm_compute. reflexivity.
  - vm_compute. reflexivity.
  - reflexivity.
  - reflexivity.
  - vm_compute. reflexivity.
Defined.

End RtspLifecycle.

Section GatewayReports.
Import Rtsp.

Lemma existsb_camera_id id (report : list CameraHealth) :
  existsb (λ h, String.eqb (ch_cameraId h) id) report = true ↔ id ∈ ch_cameraId <$> report.
Proof.
  rewrite existsb_exists, list_elem_of_fmap. split.
  - intros (h & Hin%list_elem_of_In & <-%String.eqb_eq). by exists h.
  - intros (h & -> & Hin). exists h. split; [by apply list_elem_of_In|apply String.eqb_refl].
Qed.

Lemma health_fold_report (l : list Health) : ∀ acc : list CameraHealth,
  let step := (λ (healthStatus : list CameraHealth) (health : Health),
                 if existsb (λ h, String.eqb (ch_cameraId h) (h_cameraId health)) healthStatus
                 then healthStatus
                 else (healthStatus ++
                       [mkCameraHealth (h_cameraId health) (h_status health)
                          (h_message health) (Some (h_lastSeen health)) STOPPED 0 0])%list) in
  NoDup (ch_cameraId <$> acc) →
  NoDup (ch_cameraId <$> fold_left step l acc) ∧
  (∀ x, x ∈ ch_cameraId <$> acc → x ∈ ch_cameraId <$> fold_left step l acc) ∧
  (∀ h, h ∈ l → h_cameraId h ∈ ch_cameraId <$> fold_left step l acc).
Proof.
  induction l as [|h l IH]; intros acc step Hnd; simpl.
  - repeat split; [done|done|]. by intros h' ?%elem_of_nil.
  - destruct (existsb (λ h0, String.eqb (ch_cameraId h0) (h_cameraId h)) acc) eqn:He.
    + destruct (IH acc Hnd) as (H1 & H2 & H3). fold step.
      subst step. simpl. rewrite He. repeat split; [done|done|].
      intros h' [->|Hin]%elem_of_cons; [|by apply H3].
      apply H2. by apply existsb_camera_id.
    + assert (Hnd' : NoDup (ch_cameraId <$>
                 (acc ++ [mkCameraHealth (h_cameraId h) (h_status h) (h_message h)
                            (Some (h_lastSeen h)) STOPPED 0 0])%list)).
      { rewrite fmap_app. apply NoDup_app. repeat split; [done| |apply NoDup_singleton].
        intros x Hx [->|[]%elem_of_nil]%elem_of_cons.
        apply existsb_camera_id in Hx. simpl in Hx. congruence. }
      destruct (IH _ Hnd') as (H1 & H2 & H3).
      subst step. simpl. rewrite He. repeat split; [done| |].
      * intros x Hx. apply H2. rewrite fmap_app. apply elem_of_app. by left.
      * intros h' [->|Hin]%elem_of_cons; [|by apply H3].
        apply H2. rewrite fmap_app. apply elem_of_app. right. simpl. apply list_elem_of_here.
Qed.

(** X22: the health report of the gateway names every camera at most once,
    and it names every camera that has a stream and every camera that has a
    health record. *)
Theorem health_report_covers now st c h :
  let report := ch_cameraId <$> getAllCameraHealth now st in
  NoDup report ∧
  (is_Some (activeStreams st !! c) → c ∈ report) ∧
  (streamHealth st !! c = Some h → h_cameraId h ∈ report).
Proof.
  intros report. subst report. unfold getAllCameraHealth.
  match goal with
  | |- context [fold_left ?f ?l (map ?g ?ks)] =>
    set (streaming := map g ks);
    assert (Hids : ch_cameraId <$> streaming = getActiveCameras st)
  end.
  { subst streaming. generalize (getActiveCameras st) as ks.
    induction ks as [|k ks IH]; simpl; [done|]. by f_equal. }
  assert (Hnd : NoDup (ch_cameraId <$> streaming)).
  { rewrite Hids. apply NoDup_fst_map_to_list. }
  destruct (health_fold_report (getAllStreamHealth st) streaming Hnd) as (H1 & H2 & H3).
  split; [exact H1|]. split.
  - intros [r Hr]. apply H2. rewrite Hids. unfold getActiveCameras.
    apply list_elem_of_fmap. exists (c, r). split; [done|]. by apply elem_of_map_to_list.
  - intros Hh. apply H3. unfold getAllStreamHealth.
    apply list_elem_of_fmap. exists (c, h). split; [done|]. by apply elem_of_map_to_list.
Qed.

Lemma health_report_covers_witness :
  "CCTV_01" ∈ ch_cameraId <$> getAllCameraHealth 9000 (one_camera "CCTV_01").
Proof.
  apply (health_report_covers 9000 (one_camera "CCTV_01") "CCTV_01"
           (mkHealth "CCTV_01" "ONLINE" "Stream started successfully" 0)).
  vm_compute. eauto.
Defined.

(** The report for that one camera. *)
Example health_report_one_camera :
  getAllCameraHealth 9000 (one_camera "CCTV_01")
  = [mkCameraHealth "CCTV_01" "ONLINE" "Stream started successfully" (Some 0)
       RUNNING 0 9000].
Proof. vm_compute. reflexivity. Qed.

End GatewayReports.

Section GatewayRoutes.
Import Rtsp.

Lemma truthy_empty s : truthy s = false ↔ s = "".
Proof. destruct s; simpl; split; congruence. Qed.

(** X23: POST /register-camera of the gateway answers 400 exactly when the id
    or the URL is missing and 500 exactly when both are given and the URL
    does not start with rtsp://; in both cases the store is unchanged.
    Otherwise it succeeds, also for an id that is already registered, and the
    registry then holds the new configuration under that id, with the
    defaults for location and enabled, and is unchanged elsewhere; streams,
    health records and timers are never touched. *)
Theorem gateway_register_route body st :
  let missing := i_cameraId body = "" ∨ i_rtspUrl body = "" in
  let scheme := String.prefix "rtsp://" (i_rtspUrl body) = true in
  let st' := (postRegisterCamera body st).2 in
  activeStreams st' = activeStreams st ∧ heap st' = heap st ∧
  streamHealth st' = streamHealth st ∧ restartTimers st' = restartTimers st ∧
  match (postRegisterCamera body st).1 with
  | GwError code message =>
    st' = st ∧
    (missing → code = 400 ∧ message = "cameraId and rtspUrl are required") ∧
    (¬ missing → ¬ scheme ∧ code = 500 ∧ message = "rtspUrl must start with rtsp://")
  | GwRegistered c =>
    c = i_cameraId body ∧ ¬ missing ∧ scheme ∧
    cameraRegistry st' !! c
      = Some (mkCameraConfig c (i_rtspUrl body)
                (Some (match i_location body with
                       | Some "" | None => "Unknown"
                       | Some l => l
                       end))
                (match i_enabled body with Some false => false | _ => true end)) ∧
    (∀ c', c' ≠ c → cameraRegistry st' !! c' = cameraRegistry st !! c')
  | GwCameras _ _ => False
  end.
Proof.
  intros missing scheme st'. subst missing scheme st'.
  unfold postRegisterCamera, registerCamera. cbn [i_cameraId i_rtspUrl i_location i_enabled].
  destruct (truthy (i_cameraId body)) eqn:Hc; cbn [negb orb].
  2:{ apply truthy_empty in Hc. cbn [fst snd]. repeat split; auto; exfalso; tauto. }
  destruct (truthy (i_rtspUrl body)) eqn:Hu; cbn [negb orb].
  2:{ apply truthy_empty in Hu. cbn [fst snd]. repeat split; auto; exfalso; tauto. }
  assert (Hnot : ¬ (i_cameraId body = "" ∨ i_rtspUrl body = "")).
  { intros [H|H]; rewrite H in *; discriminate. }
  destruct (String.prefix "rtsp://" (i_rtspUrl body)) eqn:Hp; cbn [negb fst snd].
  - destruct st; cbn. repeat split; auto.
    + rewrite lookup_insert_eq. do 2 f_equal.
      * destruct (i_location body) as [[|a l]|]; reflexivity.
      * destruct (i_enabled body) as [[|]|]; reflexivity.
    + intros c' Hne. by rewrite lookup_insert_ne.
  - repeat split; auto; try tauto.
Qed.

Lemma camera_entry_keys (kv : string * CameraConfig) :
  "rtspUrl" ∉ (([ ("cameraId", inl (c_cameraId kv.2)) ]
                ++ match location kv.2 with
                   | Some l => [ ("location", inl l) ]
                   | None => []
                   end
                ++ [ ("enabled", inr (enabled kv.2)) ])%list
               : list (string * (string + bool))).*1.
Proof.
  destruct (location kv.2); simpl; intros H;
    repeat (apply elem_of_cons in H as [H|H]; [discriminate|]);
    by apply elem_of_nil in H.
Qed.

(** X24: GET /cameras of the gateway lists one object for every registered
    camera, [count] is the size of the registry, no object has a key
    rtspUrl, and every registered configuration shows up with its id and its
    enabled flag. *)
Theorem gateway_cameras_route st :
  ∃ cameras,
    getCamerasList st = GwCameras cameras (size (cameraRegistry st)) ∧
    length cameras = size (cameraRegistry st) ∧
    Forall (λ o : list (string * (string + bool)), "rtspUrl" ∉ o.*1) cameras ∧
    ∀ c cfg, cameraRegistry st !! c = Some cfg →
      ∃ o, o ∈ cameras ∧ ("cameraId", inl (c_cameraId cfg)) ∈ o ∧
           ("enabled", inr (enabled cfg)) ∈ o.
Proof.
  unfold getCamerasList. eexists. split; [|split; [|split]].
  - f_equal. by rewrite length_map, length_map_to_list.
  - by rewrite length_map, length_map_to_list.
  - apply Forall_forall. intros o (kv & -> & _)%list_elem_of_fmap.
    apply camera_entry_keys.
  - intros c cfg Hc. eexists. split.
    + apply list_elem_of_fmap. exists (c, cfg). split; [reflexivity|].
      by apply elem_of_map_to_list.
    + simpl. split; [apply list_elem_of_here|].
      rewrite elem_of_cons, elem_of_app. right. right. apply list_elem_of_here.
Qed.

(** A camera registered through the route shows up in the list. *)
Example gateway_register_then_list :
  getCamerasList
    (postRegisterCamera (mkCameraInput "CCTV_01" "rtsp://10.0.0.5/live" None None) initial).2
  = GwCameras [[("cameraId", inl "CCTV_01"); ("location", inl "Unknown");
                ("enabled", inr true)]] 1.
Proof. vm_compute. reflexivity. Qed.

End GatewayRoutes.

Section StreamTokenProperties.
Import StreamToken.

Variable jwt_verify : string -> Z -> JwtResult.

(** An entry stored with NaN as its expiry is never removed again. *)
Lemma nan_entry_persists token evs : ∀ used : UsedTokens,
  used !! token = Some None → run jwt_verify used evs !! token = Some None.
Proof.
  induction evs as [|ev evs IH]; intros used Hu; simpl; [done|].
  apply IH. destruct ev as [token' t|t]; simpl.
  - destruct (validate_store jwt_verify token' t used) as [->|[Hnone [v ->]]]; [done|].
    rewrite lookup_insert_ne; [done|]. intros ->. congruence.
  - by apply sweep_keeps.
Qed.

(** X25: a call that turns a token away leaves the replay set as it was,
    with one exception: a well-signed token whose expiresAt does not parse
    to a date is stored (with NaN as its expiry) and then reported as
    'Token validation failed'. *)
Theorem rejection_store_effect token now (used : UsedTokens) :
  valid (validateStreamToken jwt_verify token now used).1 = false →
  (validateStreamToken jwt_verify token now used).2 = used ∨
  (∃ p, jwt_verify token now = Decoded p ∧ expiresAt p = ExpDate InvalidDate ∧
        used !! token = None ∧
        validateStreamToken jwt_verify token now used
        = (invalid "Token validation failed", <[token := None]> used)).
Proof.
  unfold validateStreamToken.
  destruct (truthy token); simpl; [|by left].
  destruct (used !! token) eqn:Hu; [by left|].
  destruct (jwt_verify token now) as [p|name] eqn:Hj; [|by left].
  destruct (truthy (cameraId p)); simpl; [|by left].
  destruct (expiresAt p) as [|[e|]] eqn:He; [by left| |].
  - simpl. destruct (e <? now); simpl; [by left|discriminate].
  - simpl. intros _. right. exists p. by repeat split.
Qed.

(** X26: such a token is burnt for good: whatever validations and sweeps
    follow, its entry stays in the replay set, and presenting it again is
    answered with 'Token already used'. *)
Theorem unparseable_expiry_burns_token token now (used : UsedTokens) p evs now' :
  token ≠ "" → used !! token = None →
  jwt_verify token now = Decoded p → cameraId p ≠ "" →
  expiresAt p = ExpDate InvalidDate →
  let used1 := step jwt_verify used (EvValidate token now) in
  let used2 := run jwt_verify used1 evs in
  used1 = <[token := None]> used ∧
  used2 !! token = Some None ∧
  validateStreamToken jwt_verify token now' used2 = (invalid "Token already used", used2).
Proof.
  intros Ht Hu Hj Hc He used1 used2.
  apply truthy_nonempty in Ht. apply truthy_nonempty in Hc.
  assert (H1 : used1 = <[token := None]> used).
  { subst used1. unfold step, validateStreamToken. by rewrite Ht, Hu, Hj, Hc, He. }
  assert (H2 : used2 !! token = Some None).
  { subst used2. apply nan_entry_persists. rewrite H1. apply lookup_insert_eq. }
  repeat split; [done|done|]. by apply (validate_replayed jwt_verify _ _ _ None).
Qed.

(** X27: the outcomes of the WebSocket handshake.  It is accepted only for a
    well-signed, unexpired, unused token whose permissions (VIEW by default)
    include VIEW, and the token is then in the replay set.  A refusal is a 401
    or a 403; a 403 has consumed the token as well. *)
Theorem handshake_outcomes token now (used : UsedTokens) :
  let used' := (verifyClient jwt_verify token now used).2 in
  match (verifyClient jwt_verify token now used).1 with
  | Accept v =>
    ∃ t p e, token = Some t ∧ jwt_verify t now = Decoded p ∧
      expiresAt p = ExpDate (ValidDate e) ∧ now ≤ e ∧ used !! t = None ∧
      used' = <[t := Some e]> used ∧
      "VIEW" ∈ default ["VIEW"] (permissions p) ∧
      v_cameraId v = Some (cameraId p) ∧ cameraId p ≠ ""
  | Reject code reason =>
    reason ≠ "" ∧
    (code = 401 ∧ (∀ t, is_Some (used !! t) → used' !! t = used !! t) ∨
     code = 403 ∧ reason = "No VIEW permission" ∧
     ∃ t p e, token = Some t ∧ jwt_verify t now = Decoded p ∧
       ("VIEW" ∉ default ["VIEW"] (permissions p)) ∧
       used !! t = None ∧ used' = <[t := Some e]> used)
  end.
Proof.
  intros used'. subst used'. unfold verifyClient.
  destruct token as [t|]; simpl; [|split; [done|left; done]].
  destruct (truthy t) eqn:Ht; simpl; [|split; [done|left; done]].
  destruct (validateStreamToken jwt_verify t now used) as [v u'] eqn:Hv.
  destruct (valid v) eqn:Hvalid; simpl.
  - pose proof (validate_accept_inv jwt_verify t now used) as Hinv.
    rewrite Hv in Hinv. simpl in Hinv.
    destruct (Hinv Hvalid) as (p & e & _ & Hu & Hj & Hc & He & Hle & _ & Hst).
    assert (Hperm : v_permissions v = Some (default ["VIEW"] (permissions p))).
    { revert Hv. unfold validateStreamToken. rewrite Ht, Hu, Hj, Hc, He. simpl.
      destruct (e <? now); simpl; intros [= <- _]; [done|].
      simpl. by destruct (permissions p). }
    assert (Hcam : v_cameraId v = Some (cameraId p)).
    { revert Hv. unfold validateStreamToken. rewrite Ht, Hu, Hj, Hc, He. simpl.
      destruct (e <? now); simpl; by intros [= <- _]. }
    unfold hasPermission. rewrite Hvalid, Hperm. simpl.
    destruct (bool_decide ("VIEW" ∈ default ["VIEW"] (permissions p))) eqn:Hb; simpl.
    + apply bool_decide_eq_true in Hb. exists t, p, e.
      repeat split; try done. by apply truthy_nonempty.
    + apply bool_decide_eq_false in Hb. split; [done|]. right.
      repeat split. exists t, p, e. by repeat split.
  - split.
    + destruct (error v) as [[|a s]|]; done.
    + left. split; [done|]. intros t' Ht'.
      pose proof (validate_store jwt_verify t now used) as Hs.
      rewrite Hv in Hs. simpl in Hs.
      destruct Hs as [->|[Hnone [w ->]]]; [done|].
      rewrite lookup_insert_ne; [done|]. intros ->. rewrite Hnone in Ht'.
      by destruct Ht'.
Qed.

(** X28: two sweeps in a row remove what one sweep at the later of the two
    times removes; in particular a sweep repeated at the same time removes
    nothing more. *)
Theorem sweep_twice t1 t2 (used : UsedTokens) :
  sweep t2 (sweep t1 used) = sweep (Z.max t1 t2) used.
Proof.
  apply map_eq. intros k.
  destruct (used !! k) as [[e|]|] eqn:Hu.
  - destruct (e <? t1) eqn:H1; [|destruct (e <? t2) eqn:H2].
    + rewrite (sweep_absent t2 (sweep t1 used) k)
        by (by apply (sweep_drops _ _ _ (Some e))).
      symmetry. apply (sweep_drops _ _ _ (Some e)); [done|]. simpl.
      apply Z.ltb_lt. apply Z.ltb_lt in H1. lia.
    + rewrite (sweep_drops t2 (sweep t1 used) k (Some e));
        [|by apply sweep_keeps|done].
      symmetry. apply (sweep_drops _ _ _ (Some e)); [done|]. simpl.
      apply Z.ltb_lt. apply Z.ltb_lt in H2. lia.
    + rewrite (sweep_keeps t2 (sweep t1 used) k (Some e));
        [|by apply sweep_keeps|done].
      symmetry. apply sweep_keeps; [done|]. simpl.
      apply Z.ltb_ge. apply Z.ltb_ge in H1. apply Z.ltb_ge in H2. lia.
  - rewrite (sweep_keeps t2 (sweep t1 used) k None); [|by apply sweep_keeps|done].
    symmetry. by apply sweep_keeps.
  - rewrite (sweep_absent t2 (sweep t1 used) k) by (by apply sweep_absent).
    symmetry. by apply sweep_absent.
Qed.

End StreamTokenProperties.

Lemma rejection_store_effect_witness :
  (StreamToken.validateStreamToken StreamToken.sample_verify "forged" 50000 ∅).2 = ∅ ∨
  (∃ p, StreamToken.sample_verify "forged" 50000 = StreamToken.Decoded p ∧
        StreamToken.expiresAt p = StreamToken.ExpDate InvalidDate ∧
        (∅ : StreamToken.UsedTokens) !! "forged" = None ∧
        StreamToken.validateStreamToken StreamToken.sample_verify "forged" 50000 ∅
        = (StreamToken.invalid "Token validation failed", <["forged" := None]> ∅)).
Proof.
  apply (rejection_store_effect StreamToken.sample_verify "forged" 50000 ∅).
  reflexivity.
Defined.

Lemma unparseable_expiry_burns_token_witness :
  let verify := StreamToken.table_verify
    [("T3", (StreamToken.mkPayload "CCTV_01" (StreamToken.ExpDate InvalidDate) None, None))] in
  let used1 := StreamToken.step verify ∅ (StreamToken.EvValidate "T3" 50000) in
  let used2 := StreamToken.run verify used1 [StreamToken.EvSweep 900000] in
  used1 = <["T3" := None]> ∅ ∧
  used2 !! "T3" = Some None ∧
  StreamToken.validateStreamToken verify "T3" 950000 used2
  = (StreamToken.invalid "Token already used", used2).
Proof.
  apply (unparseable_expiry_burns_token
           (StreamToken.table_verify
              [("T3", (StreamToken.mkPayload "CCTV_01"
                         (StreamToken.ExpDate InvalidDate) None, None))])
           "T3" 50000 ∅
           (StreamToken.mkPayload "CCTV_01" (StreamToken.ExpDate InvalidDate) None)
           [StreamToken.EvSweep 900000] 950000);
    first [reflexivity | discriminate].
Defined.
